(** * Result<ok_t, err_t>: a shallow embedding of [result.cpp]

    The C++ module exports the factories [Ok] and [Err], the transient
    wrappers [Success] and [Failure], and the class template [Result],
    a two-variant container that keeps one payload in raw storage next
    to a boolean discriminant.

    Objects live in a store indexed by address, so that references
    ([const Success<ok_t>&], [const Result&], [Result&&]) are addresses
    and the effect of a constructor on the object it reads from is
    visible.  Every payload object carries two pieces of bookkeeping:
    whether a move constructor has taken its value, and how many times
    its destructor has run.  The error stream and process termination
    are part of the state as well. *)

From Stdlib Require Import ZArith String.
From stdpp Require Import base gmap strings list.

Local Open Scope Z_scope.

(** ** Types the template is instantiated at *)

Inductive cpp_type : Set :=
| t_void              (* void *)
| t_None              (* None, i.e. None__* *)
| t_bool              (* bool *)
| t_int               (* int *)
| t_string.           (* std::string *)

#[global] Instance cpp_type_eq_dec : EqDecision cpp_type.
Proof. solve_decision. Defined.

(** [std::is_same_v<a, b>] *)
Definition is_same_v (a b : cpp_type) : bool := bool_decide (a = b).

(** Values of [None__*]: the factory [Ok()] only ever produces [nullptr]. *)
Inductive pointer : Set :=
| nullptr
| ptr (a : positive).

Definition denote (t : cpp_type) : Type :=
  match t with
  | t_void => Empty_set
  | t_None => pointer
  | t_bool => bool
  | t_int => Z              (* the class stores ints, it never computes *)
  | t_string => string
  end.

(** The [nullptr] of [std::is_same_v<ok_t, None> ? nullptr : Ok()], typed
    at [ok_t]; it exists exactly when [ok_t] is [None]. *)
Definition sentinel (t : cpp_type) : option (denote t) :=
  match t with
  | t_None => Some nullptr
  | _ => None
  end.

(** The implicit conversion that [return e;] applies to an [e] of type
    [from] in a function returning [to], when there is one: the identity,
    the boolean conversions of a pointer and of an [int], and the
    promotion of a [bool].  Nothing converts to or from [void] or
    between [std::string] and the other types. *)
Definition implicit_conversion (from to : cpp_type)
  : option (denote from -> denote to) :=
  match from as f, to as t return option (denote f -> denote t) with
  | t_None, t_None => Some (fun p : pointer => p)
  | t_bool, t_bool => Some (fun b : bool => b)
  | t_int, t_int => Some (fun v : Z => v)
  | t_string, t_string => Some (fun s : string => s)
  | t_None, t_bool =>
      Some (fun p : pointer =>
              match p with nullptr => false | ptr _ => true end)
  | t_int, t_bool => Some (fun v : Z => negb (v =? 0))
  | t_bool, t_int => Some (fun b : bool => if b then 1 else 0)
  | _, _ => None
  end.

(** Whether [nullptr] converts implicitly to [t]: to a pointer by the
    null pointer conversion, to [std::string] through its constructor
    from [const char*]; not to [bool] or [int].  This is what the two
    operands of [c ? nullptr : x], with [x] of type [t], need in order to
    have a common type. *)
Definition nullptr_converts (t : cpp_type) : bool :=
  match t with
  | t_None | t_string => true
  | _ => false
  end.

(** ** Objects, value categories and the choice of constructor *)

Record object (T : Type) : Type := Obj {
  val : T;                (* the value the object holds *)
  moved_from : bool;      (* a move constructor has taken its value *)
  dtor_runs : nat         (* how many times its destructor has run *)
}.
Arguments Obj {T} _ _ _.
Arguments val {T} _.
Arguments moved_from {T} _.
Arguments dtor_runs {T} _.

(** A freshly constructed object holding [v]. *)
Definition fresh_object {T} (v : T) : object T := Obj v false 0.

(** [o.~T()] *)
Definition destroy {T} (o : object T) : object T :=
  Obj (val o) (moved_from o) (S (dtor_runs o)).

(** What overload resolution looks at in an argument expression. *)
Record expr_cat : Set := Cat {
  is_const : bool;
  is_rvalue : bool
}.

Definition lvalue : expr_cat := Cat false false.
Definition const_lvalue : expr_cat := Cat true false.
Definition prvalue : expr_cat := Cat false true.

(** [std::move(e)]: an rvalue of the same constness. *)
Definition std_move (e : expr_cat) : expr_cat := Cat (is_const e) true.

(** The template argument of [std::forward<T>]. *)
Record fwd_type : Set := Fwd {
  T_const : bool;       (* T is const-qualified *)
  T_lref : bool         (* T is an lvalue reference type *)
}.

(** [std::forward<T>(e)] is [static_cast<T&&>(e)]. *)
Definition std_forward (T : fwd_type) (e : expr_cat) : expr_cat :=
  Cat (T_const T) (negb (T_lref T)).

(** The [T] deduced for a forwarding reference [T&& value]. *)
Definition deduce (arg : expr_cat) : fwd_type :=
  Fwd (is_const arg) (negb (is_rvalue arg)).

(** A parameter [T&&] accepts non-const rvalues only; everything else
    goes to the [const T&] overload. *)
Definition binds_rvalue_ref (e : expr_cat) : bool :=
  is_rvalue e && negb (is_const e).

(** [T(const T&)]: the new object and the source afterwards. *)
Definition copy_construct {T} (src : object T) : object T * object T :=
  (fresh_object (val src), src).

(** [T(T&&)]: the new object and the source afterwards. *)
Definition move_construct {T} (src : object T) : object T * object T :=
  (fresh_object (val src), Obj (val src) true (dtor_runs src)).

(** [new (p) T(e)] for an expression [e] of category [c] naming [src]. *)
Definition construct {T} (c : expr_cat) (src : object T)
  : object T * object T :=
  if binds_rvalue_ref c then move_construct src else copy_construct src.

(** ** The error stream *)

Inductive cerr_op : Set :=
| Put (s : string)      (* std::cerr << s *)
| Endl.                 (* std::cerr << std::endl *)

Definition render_op (o : cerr_op) : string :=
  match o with
  | Put s => s
  | Endl => String (Ascii.ascii_of_nat 10) EmptyString
  end.

(** The characters that reached the stream. *)
Definition render (l : list cerr_op) : string :=
  foldr (fun o acc => render_op o +:+ acc) EmptyString l.

(** ** The class template and the store *)

Definition GetOk_message : string :=
  "Attempting to Result::GetOk an error Result.".

Definition GetErr_message : string :=
  "Attempting to Result::GetErr an ok Result.".

Definition addr := positive.

(** How a call ends. *)
Inductive outcome (A : Type) : Type :=
| Returned (a : A)
| Terminated          (* std::terminate() was called *)
| Undefined.          (* a read through a dangling or mistyped reference *)
Arguments Returned {A} _.
Arguments Terminated {A}.
Arguments Undefined {A}.

Section Result.

Context {ok_t err_t : cpp_type}.

(** [m_storage] holds one constructed payload. *)
Inductive storage : Type :=
| HoldsOk (o : object (denote ok_t))
| HoldsErr (e : object (denote err_t)).

Record Result : Type := MkResult {
  m_success : bool;
  m_storage : storage
}.

Inductive cell : Type :=
| c_ok_t (o : object (denote ok_t))           (* an ok_t object *)
| c_err_t (e : object (denote err_t))         (* an err_t object *)
| c_Success (value : object (denote ok_t))    (* Success<ok_t> *)
| c_Failure (value : object (denote err_t))   (* Failure<err_t> *)
| c_Result (r : Result).                      (* Result<ok_t, err_t> *)

Record world : Type := World {
  heap : gmap addr cell;
  cerr : list cerr_op
}.

Definition M (A : Type) : Type := world -> outcome A * world.

Definition ret {A} (a : A) : M A := fun w => (Returned a, w).

Definition bind {A B} (m : M A) (k : A -> M B) : M B :=
  fun w =>
    match m w with
    | (Returned a, w') => k a w'
    | (Terminated, w') => (Terminated, w')
    | (Undefined, w') => (Undefined, w')
    end.

Definition undefined {A} : M A := fun w => (Undefined, w).

Notation "'let*' x ':=' m 'in' k" := (bind m (fun x => k))
  (at level 10, x pattern, m at level 100, k at level 200, only parsing).
Notation "m ';;;' k" := (bind m (fun _ => k))
  (at level 100, k at level 200, right associativity, only parsing).

(** *** Store primitives *)

(** Read the object an address refers to. *)
Definition load (a : addr) : M cell :=
  fun w =>
    match heap w !! a with
    | Some c => (Returned c, w)
    | None => (Undefined, w)
    end.

(** Write an object back through a reference. *)
Definition store (a : addr) (c : cell) : M unit :=
  fun w => (Returned tt, World (<[a := c]> (heap w)) (cerr w)).

(** Storage for a new object: an address no object occupies. *)
Definition alloc (c : cell) : M addr :=
  fun w =>
    let a := fresh (dom (heap w)) in
    (Returned a, World (<[a := c]> (heap w)) (cerr w)).

Definition cerr_write (o : cerr_op) : M unit :=
  fun w => (Returned tt, World (heap w) (cerr w ++ [o])).

Definition std_terminate {A} : M A := fun w => (Terminated, w).

Definition load_ok_t (a : addr) : M (object (denote ok_t)) :=
  let* c := load a in
  match c with c_ok_t o => ret o | _ => undefined end.

Definition load_err_t (a : addr) : M (object (denote err_t)) :=
  let* c := load a in
  match c with c_err_t e => ret e | _ => undefined end.

Definition load_Success (a : addr) : M (object (denote ok_t)) :=
  let* c := load a in
  match c with c_Success value => ret value | _ => undefined end.

Definition load_Failure (a : addr) : M (object (denote err_t)) :=
  let* c := load a in
  match c with c_Failure value => ret value | _ => undefined end.

Definition load_Result (a : addr) : M Result :=
  let* c := load a in
  match c with c_Result r => ret r | _ => undefined end.

(** A temporary or a variable of the payload type holding [v]. *)
Definition materialize_ok_t (v : denote ok_t) : M addr :=
  alloc (c_ok_t (fresh_object v)).

Definition materialize_err_t (v : denote err_t) : M addr :=
  alloc (c_err_t (fresh_object v)).

(** *** Success and Failure *)

(** [Success(const ok_t& ok) : value(ok)] and
    [Success(ok_t&& ok) : value(std::move(ok))]; [c] is the category of
    the argument expression, [ok] the object it names. *)
Definition Success_ctor (c : expr_cat) (ok : addr) : M addr :=
  let* o := load_ok_t ok in
  let (value, o') :=
    if binds_rvalue_ref c
    then construct (std_move lvalue) o
    else construct const_lvalue o in
  store ok (c_ok_t o') ;;;
  alloc (c_Success value).

Definition Failure_ctor (c : expr_cat) (err : addr) : M addr :=
  let* e := load_err_t err in
  let (value, e') :=
    if binds_rvalue_ref c
    then construct (std_move lvalue) e
    else construct const_lvalue e in
  store err (c_err_t e') ;;;
  alloc (c_Failure value).

(** *** Factories *)

(** [Ok(ok_t&& value)]: [Success<C>(std::forward<ok_t>(value))]. *)
Definition Ok (c : expr_cat) (value : addr) : M addr :=
  Success_ctor (std_forward (deduce c) c) value.

(** [Err(err_t&& value)]: [Failure<C>(std::forward<err_t>(value))]. *)
Definition Err (c : expr_cat) (value : addr) : M addr :=
  Failure_ctor (std_forward (deduce c) c) value.

(** *** Result *)

(** The discriminant agrees with what the storage holds. *)
Definition consistent (r : Result) : bool :=
  match m_success r, m_storage r with
  | true, HoldsOk _ => true
  | false, HoldsErr _ => true
  | _, _ => false
  end.

(** [Ok()]: [*reinterpret_cast<ok_t*>(&m_storage)] *)
Definition Result_Ok (r : Result) : M (object (denote ok_t)) :=
  match m_storage r with
  | HoldsOk o => ret o
  | HoldsErr _ => undefined
  end.

(** [Err()]: [*reinterpret_cast<err_t*>(&m_storage)] *)
Definition Result_Err (r : Result) : M (object (denote err_t)) :=
  match m_storage r with
  | HoldsErr e => ret e
  | HoldsOk _ => undefined
  end.

(** [Result(const Success<ok_t>& ok)] *)
Definition Result_from_Success (ok : addr) : M addr :=
  let* value := load_Success ok in
  let (payload, value') := construct (std_move const_lvalue) value in
  store ok (c_Success value') ;;;
  alloc (c_Result (MkResult true (HoldsOk payload))).

(** [Result(const Failure<err_t>& err)] *)
Definition Result_from_Failure (err : addr) : M addr :=
  let* value := load_Failure err in
  let (payload, value') := construct (std_move const_lvalue) value in
  store err (c_Failure value') ;;;
  alloc (c_Result (MkResult false (HoldsErr payload))).

(** [Result(const Result& result)] *)
Definition Result_copy (result : addr) : M addr :=
  let* r := load_Result result in
  let m_success' := m_success r in
  if m_success' then
    let* o := Result_Ok r in
    let (payload, o') := construct (std_forward (Fwd true false) const_lvalue) o in
    store result (c_Result (MkResult (m_success r) (HoldsOk o'))) ;;;
    alloc (c_Result (MkResult m_success' (HoldsOk payload)))
  else
    let* e := Result_Err r in
    let (payload, e') := construct (std_forward (Fwd true false) const_lvalue) e in
    store result (c_Result (MkResult (m_success r) (HoldsErr e'))) ;;;
    alloc (c_Result (MkResult m_success' (HoldsErr payload))).

(** [~Result()] *)
Definition Result_dtor (this : addr) : M unit :=
  let* r := load_Result this in
  if m_success r then
    let* o := Result_Ok r in
    store this (c_Result (MkResult (m_success r) (HoldsOk (destroy o))))
  else
    let* e := Result_Err r in
    store this (c_Result (MkResult (m_success r) (HoldsErr (destroy e)))).

(** [Result(Result&& result)] *)
Definition Result_move (result : addr) : M addr :=
  let* r := load_Result result in
  let m_success' := m_success r in
  let* this :=
    if m_success' then
      let* o := Result_Ok r in
      let (payload, o') := construct (std_forward (Fwd false false) lvalue) o in
      store result (c_Result (MkResult (m_success r) (HoldsOk o'))) ;;;
      alloc (c_Result (MkResult m_success' (HoldsOk payload)))
    else
      let* e := Result_Err r in
      let (payload, e') := construct (std_forward (Fwd false false) lvalue) e in
      store result (c_Result (MkResult (m_success r) (HoldsErr e'))) ;;;
      alloc (c_Result (MkResult m_success' (HoldsErr payload))) in
  Result_dtor result ;;;
  ret this.

(** [ErrorTerminate(const char* str)] *)
Definition ErrorTerminate (str : string) : M unit :=
  cerr_write (Put str) ;;;
  cerr_write Endl ;;;
  std_terminate.

(** [TryGet(const T& defval)] for a default of type [T]: the template
    parameter is deduced from the argument.  The call is well-formed
    when [!std::is_same_v<T, None>] and [return Ok();] can convert the
    payload to [T]. *)
Definition TryGet (T : cpp_type)
  : option (addr -> denote T -> M (denote T)) :=
  if negb (is_same_v T t_None) then
    match implicit_conversion ok_t T with
    | Some convert =>
        Some (fun this defval =>
          let* r := load_Result this in
          if m_success r then
            let* o := Result_Ok r in ret (convert (val o))
          else ret defval)
    | None => None
    end
  else None.

(** [GetOk()] with [T] at its default [ok_t]: a member only when
    [!std::is_same_v<ok_t, None>]. *)
Definition GetOk : option (addr -> M (denote ok_t)) :=
  if negb (is_same_v ok_t t_None) then
    Some (fun this =>
      let* r := load_Result this in
      (if negb (m_success r)
       then ErrorTerminate GetOk_message
       else ret tt) ;;;
      let* o := Result_Ok r in ret (val o))
  else None.

(** [GetErr()] *)
Definition GetErr (this : addr) : M (denote err_t) :=
  let* r := load_Result this in
  (if m_success r
   then ErrorTerminate GetErr_message
   else ret tt) ;;;
  let* e := Result_Err r in ret (val e).

(** [Expect(const char* msg)].  Both operands of the conditional in its
    [return] are type-checked, so the member is well-formed only when
    [nullptr] converts to [ok_t]; the condition is decided by the type
    [ok_t], and only the chosen operand is evaluated. *)
Definition Expect : option (addr -> string -> M (denote ok_t)) :=
  if nullptr_converts ok_t then
    Some (fun this msg =>
      let* r := load_Result this in
      (if negb (m_success r) then ErrorTerminate msg else ret tt) ;;;
      match sentinel ok_t with
      | Some null => ret null
      | None => let* o := Result_Ok r in ret (val o)
      end)
  else None.

(** [operator bool()] *)
Definition operator_bool (this : addr) : M bool :=
  let* r := load_Result this in
  ret (m_success r).

(** [Result<ok_t, err_t> r = Ok(v);] for an argument expression of
    category [c] whose object holds [v]. *)
Definition declare_from_Ok (c : expr_cat) (v : denote ok_t) : M addr :=
  let* arg := materialize_ok_t v in
  let* wrapper := Ok c arg in
  Result_from_Success wrapper.

(** [Result<ok_t, err_t> r = Err(e);] *)
Definition declare_from_Err (c : expr_cat) (v : denote err_t) : M addr :=
  let* arg := materialize_err_t v in
  let* wrapper := Err c arg in
  Result_from_Failure wrapper.

End Result.

Arguments Result : clear implicits.
Arguments storage : clear implicits.
Arguments cell : clear implicits.
Arguments world : clear implicits.
Arguments M : clear implicits.

(** [Ok()]: [Success<None>(nullptr)] *)
Definition Ok_None {err_t : cpp_type} : M t_None err_t addr :=
  bind (materialize_ok_t (ok_t := t_None) nullptr) (Success_ctor prvalue).

(** [static_assert(!std::is_same_v<err_t, void>, ...)]: whether the
    class template accepts the instantiation. *)
Definition Result_static_assert (ok_t err_t : cpp_type) : bool :=
  negb (is_same_v err_t t_void).

(** ** Programs using the class *)

(** The state of a process in which no object exists yet. *)
Definition start {ok_t err_t} : world ok_t err_t := World ∅ [].

(** [Result<int, int> result = Ok(3); auto x = result.Expect("x");
    bool b = result;], a program only when [Expect] is well-formed at
    [Result<int, int>]. *)
Definition scenario_Ok_3 : option (M t_int t_int (Z * bool)) :=
  match @Expect t_int t_int with
  | Some expect =>
      Some (bind (declare_from_Ok prvalue (3 : denote t_int)) (fun result =>
            bind (expect result "x") (fun x =>
            bind (operator_bool result) (fun b =>
            ret (x, b)))))
  | None => None
  end.

(** [Result<int, int> result = Ok(3); bool b = result;] *)
Definition scenario_Ok_3_bool : M t_int t_int bool :=
  bind (declare_from_Ok prvalue (3 : denote t_int)) operator_bool.

(** [{ Result<std::string, int> a = Ok(std::string("hi"));
       Result<std::string, int> b(std::move(a)); }]: at the closing
    brace [b] is destroyed, then [a]. *)
Definition scenario_move : M t_string t_int (addr * addr) :=
  bind (declare_from_Ok prvalue ("hi" : denote t_string)) (fun a =>
  bind (Result_move a) (fun b =>
  bind (Result_dtor b) (fun _ =>
  bind (Result_dtor a) (fun _ =>
  ret (a, b))))).

(** [Result<None, int> r = Ok(); auto p = r.Expect("x");] *)
Definition scenario_Ok_None : option (M t_None t_int pointer) :=
  match @Expect t_None t_int with
  | Some expect =>
      Some (bind Ok_None (fun wrapper =>
            bind (Result_from_Success wrapper) (fun r =>
            expect r "x")))
  | None => None
  end.

(** A [Result<int, int>] holding the success payload 3, one holding the
    failure payload 0, and the wrapper [Success<int>] carrying 3. *)
Definition result_3 : Result t_int t_int :=
  MkResult true (HoldsOk (fresh_object (3 : denote t_int))).

Definition result_error_0 : Result t_int t_int :=
  MkResult false (HoldsErr (fresh_object (0 : denote t_int))).

Definition success_3 : cell t_int t_int :=
  c_Success (fresh_object (3 : denote t_int)).

(** A [Result<std::string, int>] holding "hi", and one holding the
    failure payload 0. *)
Definition result_hi : Result t_string t_int :=
  MkResult true (HoldsOk (fresh_object ("hi" : denote t_string))).

Definition result_failed : Result t_string t_int :=
  MkResult false (HoldsErr (fresh_object (0 : denote t_int))).

Definition holding_hi : world t_string t_int :=
  World {[ 1%positive := c_Result result_hi ]} [].

Definition holding_failed : world t_string t_int :=
  World {[ 1%positive := c_Result result_failed ]} [].

(** Processes whose only object, at address 1, is one of these. *)
Definition holding_3 : world t_int t_int :=
  World {[ 1%positive := c_Result result_3 ]} [].

Definition holding_error_0 : world t_int t_int :=
  World {[ 1%positive := c_Result result_error_0 ]} [].

Definition wrapping_3 : world t_int t_int :=
  World {[ 1%positive := success_3 ]} [].

(** Processes whose only object, at address 1, is an [int] holding 3,
    as the success and as the failure payload type. *)
Definition int_3 : world t_int t_int :=
  World {[ 1%positive := c_ok_t (fresh_object (3 : denote t_int)) ]} [].

Definition err_int_3 : world t_int t_int :=
  World {[ 1%positive := c_err_t (fresh_object (3 : denote t_int)) ]} [].

(** Sizes and alignments as a 64-bit implementation may fix them. *)
Definition example_sizeof (t : cpp_type) : N :=
  match t with
  | t_void => 0 | t_None => 8 | t_bool => 1 | t_int => 4 | t_string => 32
  end.

Definition example_alignof (t : cpp_type) : N :=
  match t with
  | t_void => 1 | t_None => 8 | t_bool => 1 | t_int => 4 | t_string => 8
  end.

(** [Result<int, None> r = Err(None(nullptr)); auto e = r.GetErr();] *)
Definition scenario_Err_None : M t_int t_None pointer :=
  bind (declare_from_Err prvalue (nullptr : denote t_None)) GetErr.

(** * Properties *)

(** The state the process is in once [ErrorTerminate str] has run. *)
Definition after_diagnostic {ok_t err_t} (str : string)
    (w : world ok_t err_t) : world ok_t err_t :=
  World (heap w) (cerr w ++ [Put str; Endl]).

(** The value of whichever payload the storage holds. *)
Definition payload_value {ok_t err_t} (s : storage ok_t err_t)
  : denote ok_t + denote err_t :=
  match s with
  | HoldsOk o => inl (val o)
  | HoldsErr e => inr (val e)
  end.

(** Apply [f] to whichever payload object the storage holds. *)
Definition map_payload {ok_t err_t}
    (f : forall T, object T -> object T) (s : storage ok_t err_t)
  : storage ok_t err_t :=
  match s with
  | HoldsOk o => HoldsOk (f _ o)
  | HoldsErr e => HoldsErr (f _ e)
  end.

(** The object a copy or move constructor builds from [o]. *)
Definition duplicate (T : Type) (o : object T) : object T :=
  fresh_object (val o).

(** The object a move constructor leaves behind. *)
Definition moved_out (T : Type) (o : object T) : object T :=
  Obj (val o) true (dtor_runs o).

(** What the argument object looks like after a wrapper was built from
    an expression of category [c] naming it. *)
Definition forwarded {T} (c : expr_cat) (o : object T) : object T :=
  if binds_rvalue_ref c then Obj (val o) true (dtor_runs o) else o.

(** The storage holds an object nothing has moved from or destroyed. *)
Definition payload_pristine {ok_t err_t} (s : storage ok_t err_t) : bool :=
  match s with
  | HoldsOk o => negb (moved_from o) && Nat.eqb (dtor_runs o) 0
  | HoldsErr e => negb (moved_from e) && Nat.eqb (dtor_runs e) 0
  end.

(** How often the destructor of the payload in the storage has run. *)
Definition payload_dtor_runs {ok_t err_t} (s : storage ok_t err_t) : nat :=
  match s with
  | HoldsOk o => dtor_runs o
  | HoldsErr e => dtor_runs e
  end.

(** Every container in the store has its discriminant match its
    storage. *)
Definition cell_ok {ok_t err_t} (c : cell ok_t err_t) : Prop :=
  match c with
  | c_Result r => consistent r = true
  | _ => True
  end.

Definition heap_consistent {ok_t err_t} (w : world ok_t err_t) : Prop :=
  forall a c, heap w !! a = Some c -> cell_ok c.

(** [m] keeps the store consistent, however it ends. *)
Definition preserves {ok_t err_t A} (m : M ok_t err_t A) : Prop :=
  forall w, heap_consistent w -> heap_consistent (snd (m w)).

(** The storage holds an object a move constructor has taken the value
    of. *)
Definition payload_moved_from {ok_t err_t} (s : storage ok_t err_t) : bool :=
  match s with
  | HoldsOk o => moved_from o
  | HoldsErr e => moved_from e
  end.

(** [c'] is the object [c] at a later time: it is of the same class, a
    container has kept its discriminant, and an object that has not been
    moved from or destroyed in the meantime is exactly as it was. *)
Definition later_cell {ok_t err_t} (c c' : cell ok_t err_t) : Prop :=
  match c, c' with
  | c_ok_t o, c_ok_t o' =>
      negb (moved_from o') && Nat.eqb (dtor_runs o') 0 = true -> o' = o
  | c_err_t e, c_err_t e' =>
      negb (moved_from e') && Nat.eqb (dtor_runs e') 0 = true -> e' = e
  | c_Success v, c_Success v' =>
      negb (moved_from v') && Nat.eqb (dtor_runs v') 0 = true -> v' = v
  | c_Failure v, c_Failure v' =>
      negb (moved_from v') && Nat.eqb (dtor_runs v') 0 = true -> v' = v
  | c_Result r, c_Result r' =>
      m_success r' = m_success r /\
      (payload_pristine (m_storage r') = true -> r' = r)
  | _, _ => False
  end.

(** Every object of [w] is still there in [w']. *)
Definition later {ok_t err_t} (w w' : world ok_t err_t) : Prop :=
  forall a c, heap w !! a = Some c ->
    exists c', heap w' !! a = Some c' /\ later_cell c c'.

(** [m] never removes an object, never changes the discriminant of a
    container, and changes no object other than by moving from it or
    destroying it. *)
Definition keeps {ok_t err_t A} (m : M ok_t err_t A) : Prop :=
  forall w, later w (snd (m w)).

(** [m] is read-only: it changes no object, it only ever appends to the
    error stream, and when it returns it has not written to the stream
    either. *)
Definition read_only {ok_t err_t A} (m : M ok_t err_t A) : Prop :=
  forall w,
    heap (snd (m w)) = heap w /\
    (exists l, cerr (snd (m w)) = cerr w ++ l) /\
    (forall v, fst (m w) = Returned v -> snd (m w) = w).

(** The container at [a] in [w1] gives every accessor the answer that the
    container at [b] gives it in [w2]. *)
Definition answers_like {ok_t err_t}
    (a : addr) (w1 : world ok_t err_t) (b : addr) (w2 : world ok_t err_t)
  : Prop :=
  fst (operator_bool a w1) = fst (operator_bool b w2) /\
  fst (GetErr a w1) = fst (GetErr b w2) /\
  (forall expect msg, Expect = Some expect ->
     fst (expect a msg w1) = fst (expect b msg w2)) /\
  (forall get_ok, GetOk = Some get_ok ->
     fst (get_ok a w1) = fst (get_ok b w2)) /\
  (forall T try_get d, TryGet T = Some try_get ->
     fst (try_get a d w1) = fst (try_get b d w2)).

(** *** The size and alignment of [m_storage]

    [sizeof] and [alignof] of the payload types are fixed by the
    implementation; they are parameters here. *)
Section Layout.

Variables sizeof alignof : cpp_type -> N.

(** [sizeof(ok_t) > sizeof(err_t) ? sizeof(ok_t) : sizeof(err_t)] *)
Definition _size (ok_t err_t : cpp_type) : N :=
  if (sizeof err_t <? sizeof ok_t)%N then sizeof ok_t else sizeof err_t.

(** [sizeof(ok_t) > sizeof(err_t) ? alignof(ok_t) : alignof(err_t)] *)
Definition _align (ok_t err_t : cpp_type) : N :=
  if (sizeof err_t <? sizeof ok_t)%N then alignof ok_t else alignof err_t.

End Layout.

Lemma append_assoc (s1 s2 s3 : string) :
  (s1 +:+ s2) +:+ s3 = s1 +:+ s2 +:+ s3.
Proof.
  induction s1 as [| a s1 IH]; [reflexivity |].
  change (String a ((s1 +:+ s2) +:+ s3) = String a (s1 +:+ s2 +:+ s3)).
  by rewrite IH.
Qed.

Lemma render_app (l1 l2 : list cerr_op) :
  render (l1 ++ l2) = render l1 +:+ render l2.
Proof.
  induction l1 as [| o l1 IH]; [reflexivity |].
  change (render_op o +:+ render (l1 ++ l2) =
          (render_op o +:+ render l1) +:+ render l2).
  by rewrite IH, append_assoc.
Qed.

Section Equations.

Context {ok_t err_t : cpp_type}.
Implicit Types (w : world ok_t err_t) (r : Result ok_t err_t).
Implicit Types (this result : addr).

Lemma world_eta w : World (heap w) (cerr w) = w.
Proof. by destruct w. Qed.

Lemma load_Result_eq this w r :
  heap w !! this = Some (c_Result r) ->
  load_Result this w = (Returned r, w).
Proof. intros H. unfold load_Result, bind, load. by rewrite H. Qed.

Lemma load_Success_eq this w value :
  heap w !! this = Some (c_Success value) ->
  load_Success this w = (Returned value, w).
Proof. intros H. unfold load_Success, bind, load. by rewrite H. Qed.

Lemma load_Failure_eq this w value :
  heap w !! this = Some (c_Failure value) ->
  load_Failure this w = (Returned value, w).
Proof. intros H. unfold load_Failure, bind, load. by rewrite H. Qed.

Lemma load_ok_t_eq this w o :
  heap w !! this = Some (c_ok_t o) ->
  load_ok_t this w = (Returned o, w).
Proof. intros H. unfold load_ok_t, bind, load. by rewrite H. Qed.

Lemma load_err_t_eq this w e :
  heap w !! this = Some (c_err_t e) ->
  load_err_t this w = (Returned e, w).
Proof. intros H. unfold load_err_t, bind, load. by rewrite H. Qed.

Lemma ErrorTerminate_eq str w :
  ErrorTerminate str w = (Terminated, after_diagnostic str w).
Proof.
  unfold ErrorTerminate, after_diagnostic, bind, cerr_write, std_terminate.
  cbn. by rewrite <- app_assoc.
Qed.

Lemma fresh_unused w : heap w !! fresh (dom (heap w)) = None.
Proof. apply not_elem_of_dom, is_fresh. Qed.

Lemma fresh_ne this w c :
  heap w !! this = Some c -> fresh (dom (heap w)) <> this.
Proof. intros H E. rewrite <- E, fresh_unused in H. discriminate. Qed.

Lemma sentinel_is_same_v :
  is_Some (sentinel ok_t) <-> is_same_v ok_t t_None = true.
Proof.
  unfold is_same_v. destruct ok_t; cbn; split; intros H;
    try done; try (by eexists); by destruct H.
Qed.

Lemma consistent_success r :
  consistent r = true -> m_success r = true ->
  exists o, m_storage r = HoldsOk o.
Proof.
  unfold consistent. intros Hc Hs. rewrite Hs in Hc.
  destruct (m_storage r); [by eexists | done].
Qed.

Lemma consistent_failure r :
  consistent r = true -> m_success r = false ->
  exists e, m_storage r = HoldsErr e.
Proof.
  unfold consistent. intros Hc Hs. rewrite Hs in Hc.
  destruct (m_storage r); [done | by eexists].
Qed.

Lemma Result_from_Success_eq (ok : addr) w value :
  heap w !! ok = Some (c_Success value) ->
  Result_from_Success ok w =
    (Returned (fresh (dom (heap w))),
     World (<[fresh (dom (heap w)) :=
               c_Result (MkResult true (HoldsOk (fresh_object (val value))))]>
              (heap w)) (cerr w)).
Proof.
  intros H. unfold Result_from_Success, bind.
  rewrite (load_Success_eq _ _ _ H). cbn.
  unfold store, alloc. cbn. by rewrite (insert_id _ _ _ H).
Qed.

Lemma Result_from_Failure_eq (err : addr) w value :
  heap w !! err = Some (c_Failure value) ->
  Result_from_Failure err w =
    (Returned (fresh (dom (heap w))),
     World (<[fresh (dom (heap w)) :=
               c_Result (MkResult false (HoldsErr (fresh_object (val value))))]>
              (heap w)) (cerr w)).
Proof.
  intros H. unfold Result_from_Failure, bind.
  rewrite (load_Failure_eq _ _ _ H). cbn.
  unfold store, alloc. cbn. by rewrite (insert_id _ _ _ H).
Qed.

Lemma binds_forward c :
  binds_rvalue_ref (std_forward (deduce c) c) = binds_rvalue_ref c.
Proof. by destruct c as [[] []]. Qed.

Lemma Ok_eq c (value : addr) w o :
  heap w !! value = Some (c_ok_t o) ->
  let h := <[value := c_ok_t (forwarded c o)]> (heap w) in
  Ok c value w =
    (Returned (fresh (dom h)),
     World (<[fresh (dom h) := c_Success (fresh_object (val o))]> h) (cerr w)).
Proof.
  intros H. unfold Ok, Success_ctor, bind.
  rewrite (load_ok_t_eq _ _ _ H), binds_forward. unfold forwarded.
  by destruct (binds_rvalue_ref c).
Qed.

Lemma Err_eq c (value : addr) w e :
  heap w !! value = Some (c_err_t e) ->
  let h := <[value := c_err_t (forwarded c e)]> (heap w) in
  Err c value w =
    (Returned (fresh (dom h)),
     World (<[fresh (dom h) := c_Failure (fresh_object (val e))]> h) (cerr w)).
Proof.
  intros H. unfold Err, Failure_ctor, bind.
  rewrite (load_err_t_eq _ _ _ H), binds_forward. unfold forwarded.
  by destruct (binds_rvalue_ref c).
Qed.

(** Three objects created one after the other (the argument, which the
    wrapper's constructor may write to, the wrapper, the container) sit
    at new addresses and leave the older objects alone. *)
Lemma declare_heap (h : gmap addr (cell ok_t err_t)) c1 c1' c2 c3 :
  let a1 := fresh (dom h) in
  let h2 := <[a1 := c1']> (<[a1 := c1]> h) in
  let a2 := fresh (dom h2) in
  let h3 := <[a2 := c2]> h2 in
  let a3 := fresh (dom h3) in
  h !! a3 = None /\
  <[a3 := c3]> h3 !! a3 = Some c3 /\
  (forall a, is_Some (h !! a) -> <[a3 := c3]> h3 !! a = h !! a).
Proof.
  intros a1 h2 a2 h3 a3.
  assert (N1 : h !! a1 = None) by apply not_elem_of_dom, is_fresh.
  assert (N2 : h2 !! a2 = None) by apply not_elem_of_dom, is_fresh.
  assert (N3 : h3 !! a3 = None) by apply not_elem_of_dom, is_fresh.
  assert (E21 : a2 <> a1).
  { intros E. subst h2. rewrite E, lookup_insert_eq in N2. discriminate. }
  assert (E32 : a3 <> a2).
  { intros E. subst h3. rewrite E, lookup_insert_eq in N3. discriminate. }
  assert (E31 : a3 <> a1).
  { intros E. subst h3 h2. rewrite E in N3.
    rewrite lookup_insert_ne, lookup_insert_eq in N3 by done. discriminate. }
  assert (F : forall a, a <> a1 -> a <> a2 -> h3 !! a = h !! a).
  { intros a Ha1 Ha2. subst h3 h2. by rewrite !lookup_insert_ne. }
  split; [by rewrite <- (F a3) |].
  split; [apply lookup_insert_eq |].
  intros a [x Hx].
  assert (a <> a1) by (intros ->; congruence).
  assert (a <> a2) by (intros ->; rewrite F in N3 by done;
    subst h2; rewrite !lookup_insert_ne in N2 by done; congruence).
  assert (a <> a3) by (intros ->; rewrite F in N3 by done; congruence).
  rewrite lookup_insert_ne by done. by apply F.
Qed.

(** A container declared from [Ok(v)] is a new object in the success
    state whose payload is a fresh object holding [v]; objects that
    existed before are untouched and nothing is written to the stream. *)
Lemma declare_from_Ok_eq c (v : denote ok_t) w :
  exists this w',
    declare_from_Ok c v w = (Returned this, w') /\
    heap w !! this = None /\
    heap w' !! this =
      Some (c_Result (MkResult true (HoldsOk (fresh_object v)))) /\
    (forall a, is_Some (heap w !! a) -> heap w' !! a = heap w !! a) /\
    cerr w' = cerr w.
Proof.
  unfold declare_from_Ok, bind, materialize_ok_t, alloc.
  erewrite Ok_eq by apply lookup_insert_eq. cbn zeta.
  erewrite Result_from_Success_eq by apply lookup_insert_eq.
  eexists _, _. split; [reflexivity |]. cbn.
  match goal with
  | |- _ /\ <[_ := ?c3]> (<[_ := ?c2]> (<[_ := ?c1']> (<[_ := ?c1]> _))) !! _ = _ /\ _ =>
      pose proof (declare_heap (heap w) c1 c1' c2 c3) as D
  end.
  cbn zeta in D. by destruct D as (? & ? & ?).
Qed.

Lemma declare_from_Err_eq c (v : denote err_t) w :
  exists this w',
    declare_from_Err c v w = (Returned this, w') /\
    heap w !! this = None /\
    heap w' !! this =
      Some (c_Result (MkResult false (HoldsErr (fresh_object v)))) /\
    (forall a, is_Some (heap w !! a) -> heap w' !! a = heap w !! a) /\
    cerr w' = cerr w.
Proof.
  unfold declare_from_Err, bind, materialize_err_t, alloc.
  erewrite Err_eq by apply lookup_insert_eq. cbn zeta.
  erewrite Result_from_Failure_eq by apply lookup_insert_eq.
  eexists _, _. split; [reflexivity |]. cbn.
  match goal with
  | |- _ /\ <[_ := ?c3]> (<[_ := ?c2]> (<[_ := ?c1']> (<[_ := ?c1]> _))) !! _ = _ /\ _ =>
      pose proof (declare_heap (heap w) c1 c1' c2 c3) as D
  end.
  cbn zeta in D. by destruct D as (? & ? & ?).
Qed.

Lemma bind_assoc {A B C} (m : M ok_t err_t A) (k : A -> M ok_t err_t B)
    (k' : B -> M ok_t err_t C) w :
  bind (bind m k) k' w = bind m (fun a => bind (k a) k') w.
Proof. unfold bind. by destruct (m w) as [[a | |] w1]. Qed.

Lemma bind_eq {A B} (m : M ok_t err_t A) (k : A -> M ok_t err_t B) w a w1 :
  m w = (Returned a, w1) -> bind m k w = k a w1.
Proof. intros H. unfold bind. by rewrite H. Qed.

(** Once [this] is known to refer to [r], the accessors only look at [r]. *)
Lemma Expect_unfold expect this w r msg :
  Expect = Some expect ->
  heap w !! this = Some (c_Result r) ->
  expect this msg w =
    bind (if negb (m_success r) then ErrorTerminate msg else ret tt)
      (fun _ => match sentinel ok_t with
                | Some null => ret null
                | None => bind (Result_Ok r) (fun o => ret (val o))
                end) w.
Proof.
  unfold Expect. destruct (nullptr_converts ok_t); [| done].
  intros [= <-] Hr. unfold bind at 1. by rewrite (load_Result_eq _ _ _ Hr).
Qed.

Lemma Expect_member :
  is_Some (@Expect ok_t err_t) <-> nullptr_converts ok_t = true.
Proof.
  unfold Expect. destruct (nullptr_converts ok_t); split; intros H;
    try done; try (by eexists); by destruct H.
Qed.

Lemma implicit_conversion_refl (t : cpp_type) :
  t <> t_void -> implicit_conversion t t = Some (fun x => x).
Proof. by destruct t. Qed.

Lemma operator_bool_eq this w r :
  heap w !! this = Some (c_Result r) ->
  operator_bool this w = (Returned (m_success r), w).
Proof.
  intros Hr. unfold operator_bool, bind.
  by rewrite (load_Result_eq _ _ _ Hr).
Qed.

Lemma TryGet_body_eq {T : cpp_type} (convert : denote ok_t -> denote T)
    this w r (d : denote T) :
  heap w !! this = Some (c_Result r) ->
  bind (load_Result this) (fun r =>
    if m_success r then bind (Result_Ok r) (fun o => ret (convert (val o)))
    else ret d) w =
  (if m_success r then bind (Result_Ok r) (fun o => ret (convert (val o)))
   else ret d) w.
Proof.
  intros Hr. unfold bind at 1. by rewrite (load_Result_eq _ _ _ Hr).
Qed.

(** A well-formed call of [TryGet] with a default of type [T] comes with
    the conversion of the payload to [T]. *)
Lemma TryGet_unfold T try_get :
  TryGet T = Some try_get ->
  exists convert,
    implicit_conversion ok_t T = Some convert /\
    forall this d w r,
      heap w !! this = Some (c_Result r) ->
      try_get this d w =
        (if m_success r
         then bind (Result_Ok r) (fun o => ret (convert (val o)))
         else ret d) w.
Proof.
  unfold TryGet. destruct (negb _); [| done].
  destruct (implicit_conversion ok_t T) as [convert |]; [| done].
  intros [= <-]. exists convert. split; [done |].
  intros this d w r Hr. by apply TryGet_body_eq.
Qed.

(** With a default of the success payload type the payload is returned
    as it is. *)
Lemma TryGet_own_type :
  is_same_v ok_t t_None = false -> ok_t <> t_void ->
  exists try_get,
    @TryGet ok_t err_t ok_t = Some try_get /\
    forall this d w r,
      heap w !! this = Some (c_Result r) ->
      try_get this d w =
        (if m_success r then bind (Result_Ok r) (fun o => ret (val o))
         else ret d) w.
Proof.
  intros Hn Hv. unfold TryGet. rewrite Hn. cbn [negb].
  rewrite (implicit_conversion_refl _ Hv). eexists. split; [reflexivity |].
  intros this d w r Hr. by apply (TryGet_body_eq (fun x => x)).
Qed.

Lemma Result_eta r : MkResult (m_success r) (m_storage r) = r.
Proof. by destruct r. Qed.

Lemma Result_dtor_eq this w r :
  heap w !! this = Some (c_Result r) ->
  consistent r = true ->
  Result_dtor this w =
    (Returned tt,
     World (<[this := c_Result
                (MkResult (m_success r)
                   (map_payload (@destroy) (m_storage r)))]> (heap w))
           (cerr w)).
Proof.
  intros Hr Hc. unfold Result_dtor, bind at 1.
  rewrite (load_Result_eq _ _ _ Hr).
  destruct r as [[] [o | e]]; try discriminate Hc; reflexivity.
Qed.

Lemma Result_copy_eq result w r :
  heap w !! result = Some (c_Result r) ->
  consistent r = true ->
  Result_copy result w =
    (Returned (fresh (dom (heap w))),
     World (<[fresh (dom (heap w)) :=
               c_Result (MkResult (m_success r)
                           (map_payload duplicate (m_storage r)))]>
              (heap w)) (cerr w)).
Proof.
  intros Hr Hc. unfold Result_copy, bind at 1.
  rewrite (load_Result_eq _ _ _ Hr).
  destruct r as [[] [o | e]]; try discriminate Hc; cbn;
    unfold bind, store, alloc; cbn; by rewrite (insert_id _ _ _ Hr).
Qed.

Lemma Result_move_eq result w r :
  heap w !! result = Some (c_Result r) ->
  consistent r = true ->
  let moved := MkResult (m_success r) (map_payload moved_out (m_storage r)) in
  let h1 := <[result := c_Result moved]> (heap w) in
  let this := fresh (dom h1) in
  let built := MkResult (m_success r) (map_payload duplicate (m_storage r)) in
  let h2 := <[this := c_Result built]> h1 in
  Result_move result w =
    (Returned this,
     World (<[result := c_Result
                (MkResult (m_success r)
                   (map_payload (@destroy)
                      (map_payload moved_out (m_storage r))))]> h2)
           (cerr w)).
Proof.
  intros Hr Hc moved h1 this built h2.
  assert (Hne : this <> result).
  { intros E. pose proof (is_fresh (dom h1)) as F. fold this in F.
    apply F. rewrite E. apply elem_of_dom. subst h1.
    rewrite lookup_insert_eq. by eexists. }
  assert (Hm : h2 !! result = Some (c_Result moved)).
  { subst h2 h1. rewrite lookup_insert_ne by done. apply lookup_insert_eq. }
  assert (Hcm : consistent moved = true).
  { subst moved. destruct r as [[] [o | e]]; done. }
  pose proof (Result_dtor_eq result (World h2 (cerr w)) moved Hm Hcm) as D.
  unfold Result_move, bind at 1. rewrite (load_Result_eq _ _ _ Hr).
  unfold bind at 1.
  destruct r as [[] [o | e]]; try discriminate Hc; cbn;
    match goal with
    | |- _ = ?R =>
        change (bind (Result_dtor result) (fun _ => ret this)
                  (World h2 (cerr w)) = R)
    end;
    unfold bind; by rewrite D.
Qed.

End Equations.

(** ** The discriminant always matches the storage

    Every container that a constructor creates is consistent, and no
    member function makes a container inconsistent; the hypothesis
    [consistent r = true] of the theorems below therefore holds of every
    container a program can get hold of. *)

Section Invariant.

Context {ok_t err_t : cpp_type}.

Lemma start_consistent : heap_consistent (@start ok_t err_t).
Proof. intros a c H. cbn in H. by rewrite lookup_empty in H. Qed.

Lemma preserves_ret {A} (a : A) : preserves (@ret ok_t err_t A a).
Proof. by intros w H. Qed.

Lemma preserves_undefined {A} : preserves (@undefined ok_t err_t A).
Proof. by intros w H. Qed.

Lemma preserves_terminate {A} : preserves (@std_terminate ok_t err_t A).
Proof. by intros w H. Qed.

Lemma preserves_bind {A B} (m : M ok_t err_t A) (k : A -> M ok_t err_t B) :
  preserves m -> (forall a, preserves (k a)) -> preserves (bind m k).
Proof.
  intros Hm Hk w H. unfold bind. specialize (Hm w H).
  destruct (m w) as [[a | |] w1]; cbn in *; [by apply Hk | done | done].
Qed.

Lemma preserves_load a : preserves (@load ok_t err_t a).
Proof. intros w H. unfold load. by destruct (heap w !! a). Qed.

Lemma preserves_store a (c : cell ok_t err_t) :
  cell_ok c -> preserves (store a c).
Proof.
  intros Hc w H b c' Hb. cbn in Hb.
  destruct (decide (a = b)) as [-> |].
  - rewrite lookup_insert_eq in Hb. by injection Hb as <-.
  - rewrite lookup_insert_ne in Hb by done. by apply (H b).
Qed.

Lemma preserves_alloc (c : cell ok_t err_t) :
  cell_ok c -> preserves (alloc c).
Proof. intros Hc w H. by apply (preserves_store (fresh (dom (heap w))) c). Qed.

Lemma preserves_cerr_write o : preserves (@cerr_write ok_t err_t o).
Proof. by intros w H. Qed.

Lemma preserves_if {A} (b : bool) (m1 m2 : M ok_t err_t A) :
  (b = true -> preserves m1) -> (b = false -> preserves m2) ->
  preserves (if b then m1 else m2).
Proof. destruct b; auto. Qed.

Lemma preserves_let_pair {A X Y} (p : X * Y) (k : X -> Y -> M ok_t err_t A) :
  (forall x y, preserves (k x y)) -> preserves (let (x, y) := p in k x y).
Proof. destruct p. auto. Qed.

Ltac preserve :=
  repeat first
    [ apply preserves_ret | apply preserves_undefined
    | apply preserves_terminate | apply preserves_load
    | apply preserves_cerr_write
    | apply preserves_store; cbn; try done
    | apply preserves_alloc; cbn; try done
    | apply preserves_bind; [| intros ?]
    | apply preserves_let_pair; intros ? ?
    | apply preserves_if; intros ?
    | match goal with
      | |- preserves (match ?c with _ => _ end) => destruct c
      end ].

Lemma preserves_ErrorTerminate str : preserves (@ErrorTerminate ok_t err_t str).
Proof. unfold ErrorTerminate. preserve. Qed.

Lemma preserves_Ok c value : preserves (@Ok ok_t err_t c value).
Proof. unfold Ok, Success_ctor, load_ok_t. preserve. Qed.

Lemma preserves_Err c value : preserves (@Err ok_t err_t c value).
Proof. unfold Err, Failure_ctor, load_err_t. preserve. Qed.

Lemma preserves_Result_from_Success ok :
  preserves (@Result_from_Success ok_t err_t ok).
Proof. unfold Result_from_Success, load_Success. preserve. Qed.

Lemma preserves_Result_from_Failure err :
  preserves (@Result_from_Failure ok_t err_t err).
Proof. unfold Result_from_Failure, load_Failure. preserve. Qed.

Lemma preserves_Result_dtor this : preserves (@Result_dtor ok_t err_t this).
Proof.
  unfold Result_dtor, load_Result, Result_Ok, Result_Err. preserve;
    unfold consistent; cbn;
    match goal with H : m_success _ = _ |- _ => by rewrite H end.
Qed.

Lemma preserves_Result_copy result :
  preserves (@Result_copy ok_t err_t result).
Proof.
  unfold Result_copy, load_Result, Result_Ok, Result_Err. preserve;
    unfold consistent; cbn;
    match goal with H : m_success _ = _ |- _ => by rewrite H end.
Qed.

Lemma preserves_Result_move result :
  preserves (@Result_move ok_t err_t result).
Proof.
  unfold Result_move. apply preserves_bind; [unfold load_Result; preserve |].
  intros r. apply preserves_bind.
  - unfold Result_Ok, Result_Err. preserve;
      unfold consistent; cbn;
      match goal with H : m_success _ = _ |- _ => by rewrite H end.
  - intros this. apply preserves_bind; [apply preserves_Result_dtor |].
    intros _. apply preserves_ret.
Qed.

Lemma preserves_declare_from_Ok c v :
  preserves (@declare_from_Ok ok_t err_t c v).
Proof.
  unfold declare_from_Ok, materialize_ok_t.
  apply preserves_bind; [by apply preserves_alloc |]. intros arg.
  apply preserves_bind; [apply preserves_Ok |]. intros wrapper.
  apply preserves_Result_from_Success.
Qed.

Lemma preserves_declare_from_Err c v :
  preserves (@declare_from_Err ok_t err_t c v).
Proof.
  unfold declare_from_Err, materialize_err_t.
  apply preserves_bind; [by apply preserves_alloc |]. intros arg.
  apply preserves_bind; [apply preserves_Err |]. intros wrapper.
  apply preserves_Result_from_Failure.
Qed.

End Invariant.

(** ** Accessors *)

(** C1.  When the success payload type is not the sentinel, [GetOk] is a
    member of the class.  On a container whose success variant is active
    it returns the stored success payload and changes nothing; on a
    container declared from [Ok(v)] it returns [v]; on a container whose
    failure variant is active it puts the fixed diagnostic on the error
    stream, followed by [std::endl], and the call ends in
    [std::terminate] without returning. *)
Theorem GetOk_spec (ok_t err_t : cpp_type) :
  is_same_v ok_t t_None = false ->
  exists get_ok : addr -> M ok_t err_t (denote ok_t),
    GetOk = Some get_ok /\
    (forall this w r o,
        heap w !! this = Some (c_Result r) ->
        m_success r = true -> m_storage r = HoldsOk o ->
        get_ok this w = (Returned (val o), w)) /\
    (forall c v w,
        exists w', bind (declare_from_Ok c v) get_ok w = (Returned v, w') /\
                   cerr w' = cerr w) /\
    (forall this w r,
        heap w !! this = Some (c_Result r) ->
        m_success r = false ->
        get_ok this w = (Terminated, after_diagnostic GetOk_message w)).
Proof.
  intros Hns. unfold GetOk. rewrite Hns. cbn [negb].
  eexists. split; [reflexivity |].
  assert (Hok : forall this (w : world ok_t err_t) r o,
            heap w !! this = Some (c_Result r) ->
            m_success r = true -> m_storage r = HoldsOk o ->
            bind (load_Result this) (fun r =>
              bind (if negb (m_success r)
                    then ErrorTerminate GetOk_message else ret tt)
                (fun _ => bind (Result_Ok r) (fun o => ret (val o)))) w
            = (Returned (val o), w)).
  { intros this w r o Hr Hs Ho. unfold bind at 1.
    rewrite (load_Result_eq _ _ _ Hr). unfold bind, Result_Ok.
    by rewrite Hs, Ho. }
  split; [exact Hok |]. split.
  - intros c v w.
    destruct (declare_from_Ok_eq c v w) as (this & w' & Hd & _ & Hr & _ & Hc).
    exists w'. split; [| exact Hc].
    unfold bind at 1. rewrite Hd.
    exact (Hok this w' _ (fresh_object v) Hr eq_refl eq_refl).
  - intros this w r Hr Hs. unfold bind at 1.
    rewrite (load_Result_eq _ _ _ Hr). unfold bind at 1.
    rewrite Hs. cbn [negb]. by rewrite ErrorTerminate_eq.
Qed.

(** C2.  On a container whose failure variant is active [GetErr] returns
    the stored failure payload and changes nothing; on a container
    declared from [Err(e)] it returns [e]; on a container whose success
    variant is active it puts its own fixed diagnostic on the error
    stream, followed by [std::endl], and the call ends in
    [std::terminate] without returning. *)
Theorem GetErr_spec (ok_t err_t : cpp_type) :
  (forall this (w : world ok_t err_t) r e,
      heap w !! this = Some (c_Result r) ->
      m_success r = false -> m_storage r = HoldsErr e ->
      GetErr this w = (Returned (val e), w)) /\
  (forall c (v : denote err_t) (w : world ok_t err_t),
      exists w', bind (declare_from_Err c v) GetErr w = (Returned v, w') /\
                 cerr w' = cerr w) /\
  (forall this (w : world ok_t err_t) r,
      heap w !! this = Some (c_Result r) ->
      m_success r = true ->
      GetErr this w = (Terminated, after_diagnostic GetErr_message w)) /\
  GetErr_message <> GetOk_message.
Proof.
  assert (Herr : forall this (w : world ok_t err_t) r e,
            heap w !! this = Some (c_Result r) ->
            m_success r = false -> m_storage r = HoldsErr e ->
            GetErr this w = (Returned (val e), w)).
  { intros this w r e Hr Hs He. unfold GetErr, bind at 1.
    rewrite (load_Result_eq _ _ _ Hr). unfold bind, Result_Err.
    by rewrite Hs, He. }
  split; [exact Herr |]. split; [| split; [| done]].
  - intros c v w.
    destruct (declare_from_Err_eq c v w) as (this & w' & Hd & _ & Hr & _ & Hc).
    exists w'. split; [| exact Hc].
    unfold bind at 1. rewrite Hd.
    exact (Herr this w' _ (fresh_object v) Hr eq_refl eq_refl).
  - intros this w r Hr Hs. unfold GetErr, bind at 1.
    rewrite (load_Result_eq _ _ _ Hr). unfold bind at 1.
    rewrite Hs. cbn [negb]. by rewrite ErrorTerminate_eq.
Qed.

(** C3.  The guard of [TryGet] tests the type [T] of the default, which
    is deduced from the argument, not the success payload type: in
    [Result<None, err_t>] the call [TryGet(d)] with a [bool] default is
    well-formed.  On a container built from [Ok()] it returns false, the
    stored [nullptr] converted to [bool]; on a container built from
    [Err(e)] it returns [d].  In the same way [Ok(3).TryGet(false)] in
    [Result<int, err_t>] returns true, the payload converted to the type
    of the default. *)
Theorem TryGet_accepts_None_payload (err_t : cpp_type) :
  (exists try_get : addr -> bool -> M t_None err_t bool,
     @TryGet t_None err_t t_bool = Some try_get /\
     (forall d w, exists w',
         bind (bind Ok_None Result_from_Success) (fun r => try_get r d) w
           = (Returned false, w')) /\
     (forall c e d w, exists w',
         bind (declare_from_Err c e) (fun r => try_get r d) w
           = (Returned d, w'))) /\
  (exists try_get : addr -> bool -> M t_int err_t bool,
     @TryGet t_int err_t t_bool = Some try_get /\
     (forall c w, exists w',
         bind (declare_from_Ok c (3 : denote t_int))
           (fun r => try_get r false) w = (Returned true, w'))).
Proof.
  split.
  2: { assert (Hm : exists g, @TryGet t_int err_t t_bool = Some g)
         by (by eexists).
       destruct Hm as [g Hg]. exists g. split; [exact Hg |].
       destruct (TryGet_unfold _ _ Hg) as (convert & Hconv & Hbody).
       injection Hconv as <-. intros c w.
       destruct (declare_from_Ok_eq (ok_t := t_int) (err_t := err_t) c 3 w)
         as (r & w' & Hd & _ & Hr & _).
       exists w'. by rewrite (bind_eq _ _ _ _ _ Hd), (Hbody _ _ _ _ Hr). }
  assert (Hm : exists g, @TryGet t_None err_t t_bool = Some g)
    by (by eexists).
  destruct Hm as [g Hg]. exists g. split; [exact Hg |].
  destruct (TryGet_unfold _ _ Hg) as (convert & Hconv & Hbody).
  injection Hconv as <-. split.
  - intros d w.
    destruct (declare_from_Ok_eq (ok_t := t_None) (err_t := err_t)
                prvalue nullptr w) as (r & w' & Hd & _ & Hr & _).
    exists w'.
    assert (Hb : bind Ok_None Result_from_Success w = (Returned r, w')).
    { unfold Ok_None. rewrite bind_assoc. exact Hd. }
    by rewrite (bind_eq _ _ _ _ _ Hb), (Hbody _ _ _ _ Hr).
  - intros c e d w.
    destruct (declare_from_Err_eq (ok_t := t_None) c e w)
      as (r & w' & Hd & _ & Hr & _).
    exists w'. by rewrite (bind_eq _ _ _ _ _ Hd), (Hbody _ _ _ _ Hr).
Qed.

(** C4.  [Expect] is ill-formed in every instantiation whose success
    payload type [nullptr] does not convert to, among them
    [Result<int, err_t>] and [Result<bool, err_t>]: the two operands of
    the conditional in its [return] have no common type there.  It is
    well-formed for [None] and for [std::string]. *)
Theorem Expect_ill_formed (err_t : cpp_type) :
  @Expect t_int err_t = None /\
  @Expect t_bool err_t = None /\
  is_Some (@Expect t_None err_t) /\
  is_Some (@Expect t_string err_t).
Proof. split_and!; try done; by eexists. Qed.

(** C8.  The boolean conversion returns the discriminant and leaves the
    whole state, in particular the discriminant and the stored payload of
    the container, as it was; on a consistent container the discriminant
    is true exactly when the storage holds a success payload. *)
Theorem operator_bool_spec (ok_t err_t : cpp_type) (this : addr)
    (w : world ok_t err_t) (r : Result ok_t err_t) :
  heap w !! this = Some (c_Result r) ->
  consistent r = true ->
  exists b w',
    operator_bool this w = (Returned b, w') /\
    (b = true <-> exists o, m_storage r = HoldsOk o) /\
    (b = false <-> exists e, m_storage r = HoldsErr e) /\
    w' = w /\
    heap w' !! this = Some (c_Result r).
Proof.
  intros Hr Hc. rewrite (operator_bool_eq _ _ _ Hr). eexists _, _.
  split; [reflexivity |]. split_and!; try done.
  - split; [by apply consistent_success |].
    intros [o Ho]. unfold consistent in Hc. rewrite Ho in Hc.
    by destruct (m_success r).
  - split; [by apply consistent_failure |].
    intros [e He]. unfold consistent in Hc. rewrite He in Hc.
    by destruct (m_success r).
Qed.

(** C7.  In [Result<int, int>] the scenario [Ok(3)] then [Expect("x")]
    is not a program: [Expect] is ill-formed at this instantiation.
    The other half of the scenario holds: from any starting state the
    container declared from [Ok(3)] converts to true. *)
Theorem scenario_Ok_3_ill_formed :
  scenario_Ok_3 = None /\
  (forall w, exists w',
      scenario_Ok_3_bool w = (Returned true, w') /\ cerr w' = cerr w).
Proof.
  split; [reflexivity |]. intros w. unfold scenario_Ok_3_bool.
  destruct (declare_from_Ok_eq (ok_t := t_int) (err_t := t_int) prvalue 3 w)
    as (this & w' & Hd & _ & Hr & _ & Hc).
  exists w'. split; [| exact Hc].
  by rewrite (bind_eq _ _ _ _ _ Hd), (operator_bool_eq _ _ _ Hr).
Qed.

(** ** Construction from a wrapper, copy, move *)

(** C10.  The [std::move] that the converting constructors apply to the
    member of a [const] wrapper selects the copy constructor of the
    payload type, so building a container from a [Success] or [Failure]
    wrapper leaves the wrapper's value as it was; the container is a new
    object holding a fresh payload with the wrapper's value. *)
Theorem wrapper_value_unchanged (ok_t err_t : cpp_type) :
  (forall T (o : object T),
      construct (std_move const_lvalue) o = copy_construct o) /\
  (forall (ok : addr) (w : world ok_t err_t) value,
      heap w !! ok = Some (c_Success value) ->
      exists this w',
        Result_from_Success ok w = (Returned this, w') /\
        this <> ok /\
        heap w' !! ok = Some (c_Success value) /\
        heap w' !! this =
          Some (c_Result (MkResult true (HoldsOk (fresh_object (val value)))))) /\
  (forall (err : addr) (w : world ok_t err_t) value,
      heap w !! err = Some (c_Failure value) ->
      exists this w',
        Result_from_Failure err w = (Returned this, w') /\
        this <> err /\
        heap w' !! err = Some (c_Failure value) /\
        heap w' !! this =
          Some (c_Result (MkResult false (HoldsErr (fresh_object (val value)))))).
Proof.
  split_and!; [done | |].
  - intros ok w value H. rewrite (Result_from_Success_eq _ _ _ H).
    pose proof (fresh_ne _ _ _ H) as Hne.
    eexists _, _. split; [reflexivity |]. cbn. split_and!; [done | |].
    + by rewrite lookup_insert_ne.
    + apply lookup_insert_eq.
  - intros err w value H. rewrite (Result_from_Failure_eq _ _ _ H).
    pose proof (fresh_ne _ _ _ H) as Hne.
    eexists _, _. split; [reflexivity |]. cbn. split_and!; [done | |].
    + by rewrite lookup_insert_ne.
    + apply lookup_insert_eq.
Qed.

(** C9.  Copy construction from a container [r] yields a new object with
    the discriminant of [r] whose storage holds a freshly constructed
    payload of the active type, equal in value to the payload of [r].
    The source and every other existing object are left as they were,
    and the two containers share nothing: writing to or destroying
    either one leaves the other as it is. *)
Theorem Result_copy_spec (ok_t err_t : cpp_type) (result : addr)
    (w : world ok_t err_t) (r : Result ok_t err_t) :
  heap w !! result = Some (c_Result r) ->
  consistent r = true ->
  exists this w' r',
    Result_copy result w = (Returned this, w') /\
    heap w !! this = None /\
    this <> result /\
    heap w' !! this = Some (c_Result r') /\
    m_success r' = m_success r /\
    consistent r' = true /\
    payload_value (m_storage r') = payload_value (m_storage r) /\
    payload_pristine (m_storage r') = true /\
    heap w' !! result = Some (c_Result r) /\
    (forall a, a <> this -> heap w' !! a = heap w !! a) /\
    cerr w' = cerr w /\
    (forall c, heap (snd (store this c w')) !! result = Some (c_Result r)) /\
    (forall c, heap (snd (store result c w')) !! this = Some (c_Result r')) /\
    heap (snd (Result_dtor this w')) !! result = Some (c_Result r) /\
    heap (snd (Result_dtor result w')) !! this = Some (c_Result r').
Proof.
  intros Hr Hc. rewrite (Result_copy_eq _ _ _ Hr Hc).
  pose proof (fresh_ne _ _ _ Hr) as Hne.
  set (this := fresh (dom (heap w))) in *.
  set (r' := MkResult (m_success r) (map_payload duplicate (m_storage r))).
  assert (Hc' : consistent r' = true)
    by (destruct r as [[] [o | e]]; done).
  set (w' := World (<[this := c_Result r']> (heap w)) (cerr w)).
  assert (Ht : heap w' !! this = Some (c_Result r'))
    by apply lookup_insert_eq.
  assert (Hs : heap w' !! result = Some (c_Result r))
    by (cbn; by rewrite lookup_insert_ne).
  exists this, w', r'. split; [reflexivity |].
  split_and!; try done.
  - apply fresh_unused.
  - by destruct r as [? [o | e]].
  - by destruct r as [? [o | e]].
  - intros a Ha. cbn. by rewrite lookup_insert_ne.
  - intros c. cbn. by rewrite !lookup_insert_ne.
  - intros c. cbn. rewrite lookup_insert_ne by done. apply lookup_insert_eq.
  - rewrite (Result_dtor_eq _ _ _ Ht Hc'). cbn. by rewrite !lookup_insert_ne.
  - rewrite (Result_dtor_eq _ _ _ Hs Hc). cbn.
    rewrite lookup_insert_ne by done. apply lookup_insert_eq.
Qed.

(** Move construction from a consistent container [r]: the new container
    has the discriminant of [r] and a fresh payload with the value of the
    payload of [r]; the constructor has already run the destructor of the
    source's payload once, and when the source's own destructor runs
    afterwards it runs on that same payload again. *)
Lemma Result_move_then_dtor (ok_t err_t : cpp_type) (result : addr)
    (w : world ok_t err_t) (r : Result ok_t err_t) :
  heap w !! result = Some (c_Result r) ->
  consistent r = true ->
  exists this w1 r' r1 w2 r2,
    Result_move result w = (Returned this, w1) /\
    this <> result /\
    heap w1 !! this = Some (c_Result r') /\
    m_success r' = m_success r /\
    payload_value (m_storage r') = payload_value (m_storage r) /\
    payload_pristine (m_storage r') = true /\
    heap w1 !! result = Some (c_Result r1) /\
    payload_dtor_runs (m_storage r1) = S (payload_dtor_runs (m_storage r)) /\
    Result_dtor result w1 = (Returned tt, w2) /\
    heap w2 !! result = Some (c_Result r2) /\
    payload_dtor_runs (m_storage r2) = S (S (payload_dtor_runs (m_storage r))) /\
    heap w2 !! this = Some (c_Result r').
Proof.
  intros Hr Hc. rewrite (Result_move_eq _ _ _ Hr Hc). cbn zeta.
  set (h1 := <[result := _]> (heap w)).
  set (this := fresh (dom h1)).
  assert (Hne : this <> result).
  { intros E. apply (is_fresh (dom h1)). fold this. rewrite E.
    apply elem_of_dom. subst h1. rewrite lookup_insert_eq. by eexists. }
  set (r' := MkResult (m_success r) (map_payload duplicate (m_storage r))).
  set (r1 := MkResult (m_success r)
               (map_payload (@destroy) (map_payload moved_out (m_storage r)))).
  set (w1 := World (<[result := c_Result r1]> (<[this := c_Result r']> h1))
                   (cerr w)).
  assert (H1 : heap w1 !! result = Some (c_Result r1))
    by apply lookup_insert_eq.
  assert (Hc1 : consistent r1 = true)
    by (destruct r as [[] [o | e]]; done).
  exists this, w1, r', r1. eexists _, _.
  split; [reflexivity |]. split; [done |].
  split; [cbn; rewrite lookup_insert_ne by done; apply lookup_insert_eq |].
  split; [done |].
  split; [by destruct r as [? [o | e]] |].
  split; [by destruct r as [? [o | e]] |].
  split; [done |].
  split; [by destruct r as [? [o | e]] |].
  split; [apply (Result_dtor_eq _ _ _ H1 Hc1) |]. cbn.
  split; [apply lookup_insert_eq |].
  split; [by destruct r as [? [o | e]] |].
  rewrite !lookup_insert_ne by done. apply lookup_insert_eq.
Qed.

(** C5.  [a] is declared from [Ok("hi")] in [Result<std::string, int>],
    [b] is move-constructed from [a], and both go out of scope.  The
    payload of [b], which received "hi", has been destroyed once; the
    payload object of [a] has had its destructor run twice: once by the
    explicit [result.~Result()] inside the move constructor and once
    more by the destructor of [a]. *)
Theorem scenario_move_destroys_payload_twice :
  exists (a b : addr) (w' : world t_string t_int),
    scenario_move start = (Returned (a, b), w') /\
    a <> b /\
    heap w' !! b =
      Some (c_Result (MkResult true
              (@HoldsOk t_string t_int (Obj "hi" false 1)))) /\
    heap w' !! a =
      Some (c_Result (MkResult true
              (@HoldsOk t_string t_int (Obj "hi" true 2)))).
Proof.
  eexists _, _, _. split; [vm_compute; reflexivity |].
  split; [discriminate |]. split; vm_compute; reflexivity.
Qed.

(** C6.  The [static_assert] of the class compares the failure payload
    type with [void], not with the sentinel type [None]: it rejects
    exactly [void], so [Result<int, None>] is accepted, and such a
    container built from [Err(nullptr)] hands back the value-less
    sentinel as its failure payload. *)
Theorem static_assert_accepts_None :
  Result_static_assert t_int t_None = true /\
  (forall ok_t err_t,
      Result_static_assert ok_t err_t = false <-> err_t = t_void) /\
  exists w', scenario_Err_None start = (Returned nullptr, w').
Proof.
  split; [reflexivity |]. split.
  - intros ok_t err_t. by destruct err_t.
  - eexists. vm_compute. reflexivity.
Qed.

(** ** Further scenarios *)

(** A [Result<None, int>] built from [Ok()] yields the sentinel from
    [Expect]. *)
Example scenario_Ok_None_spec :
  exists program,
    scenario_Ok_None = Some program /\
    fst (program start) = Returned nullptr /\
    cerr (snd (program start)) = [].
Proof. eexists. split; [reflexivity |]. split; vm_compute; reflexivity. Qed.

(** [Result<int, int>] built via [Err(0)]: [TryGet(7)] returns 7. *)
Example scenario_Err_0_TryGet :
  forall try_get, @TryGet t_int t_int t_int = Some try_get ->
  fst (bind (declare_from_Err prvalue (0 : denote t_int))
         (fun r => try_get r 7) start) = Returned 7.
Proof. intros g [= <-]. vm_compute. reflexivity. Qed.

(** [Result<std::string, int>] built via [Ok("hi")]: [GetOk()] returns
    "hi". *)
Example scenario_Ok_hi_GetOk :
  forall get_ok, @GetOk t_string t_int = Some get_ok ->
  fst (bind (declare_from_Ok prvalue ("hi" : denote t_string)) get_ok start)
    = Returned "hi".
Proof. intros g [= <-]. vm_compute. reflexivity. Qed.

(** ** The theorems at concrete containers *)

Lemma GetOk_spec_witness :
  is_same_v t_int t_None = false /\
  exists get_ok : addr -> M t_int t_int Z,
    @GetOk t_int t_int = Some get_ok /\
    get_ok 1%positive holding_3 = (Returned 3, holding_3) /\
    get_ok 1%positive holding_error_0 =
      (Terminated, after_diagnostic GetOk_message holding_error_0).
Proof.
  split; [reflexivity |].
  destruct (GetOk_spec t_int t_int eq_refl) as (g & Hg & Hok & _ & Hfail).
  exists g. split; [exact Hg |]. split.
  - exact (Hok 1%positive holding_3 _ (fresh_object 3) eq_refl eq_refl eq_refl).
  - exact (Hfail 1%positive holding_error_0 _ eq_refl eq_refl).
Defined.

Lemma GetErr_spec_witness :
  GetErr 1%positive holding_error_0 = (Returned 0, holding_error_0) /\
  GetErr 1%positive holding_3 =
    (Terminated, after_diagnostic GetErr_message holding_3).
Proof.
  destruct (GetErr_spec t_int t_int) as (Herr & _ & Hfail & _). split.
  - exact (Herr 1%positive holding_error_0 _ (fresh_object 0)
             eq_refl eq_refl eq_refl).
  - exact (Hfail 1%positive holding_3 _ eq_refl eq_refl).
Defined.

Lemma operator_bool_spec_witness :
  heap holding_error_0 !! 1%positive = Some (c_Result result_error_0) /\
  operator_bool 1%positive holding_error_0 = (Returned false, holding_error_0).
Proof.
  split; [reflexivity |].
  destruct (operator_bool_spec t_int t_int 1%positive holding_error_0 _
              eq_refl eq_refl) as (b & w' & Hrun & _ & Hb & Hw & _).
  rewrite Hrun, Hw. f_equal. f_equal. apply Hb. by eexists.
Defined.

Lemma Result_copy_spec_witness :
  heap holding_3 !! 1%positive = Some (c_Result result_3) /\
  exists this w',
    Result_copy 1%positive holding_3 = (Returned this, w') /\
    this <> 1%positive /\
    heap w' !! 1%positive = heap holding_3 !! 1%positive.
Proof.
  split; [reflexivity |].
  destruct (Result_copy_spec t_int t_int 1%positive holding_3 _
              eq_refl eq_refl)
    as (this & w' & r' & Hrun & _ & Hne & _ & _ & _ & _ & _ & Hsrc & _).
  exists this, w'. split; [exact Hrun |]. split; [exact Hne |].
  exact Hsrc.
Defined.

Lemma wrapper_value_unchanged_witness :
  heap wrapping_3 !! 1%positive = Some success_3 /\
  exists this w',
    Result_from_Success 1%positive wrapping_3 = (Returned this, w') /\
    heap w' !! 1%positive = Some success_3.
Proof.
  split; [reflexivity |].
  destruct (wrapper_value_unchanged t_int t_int) as (_ & Hok & _).
  destruct (Hok 1%positive wrapping_3 _ eq_refl)
    as (this & w' & Hrun & _ & Hw & _).
  exists this, w'. by split.
Defined.

(** * More about the module *)

(** ** Objects persist *)

Section Later.

Context {ok_t err_t : cpp_type}.
Implicit Types (w : world ok_t err_t) (c : cell ok_t err_t).
Implicit Types (h : gmap addr (cell ok_t err_t)) (l : list cerr_op).

Lemma later_cell_refl c : later_cell c c.
Proof. destruct c; cbn; auto. Qed.

Lemma later_cell_trans c1 c2 c3 :
  later_cell c1 c2 -> later_cell c2 c3 -> later_cell c1 c3.
Proof.
  destruct c1, c2, c3; cbn; try done.
  1-4: intros H12 H23 H3; specialize (H23 H3); subst; auto.
  intros [E12 H12] [E23 H23]. split; [congruence |].
  intros H3. specialize (H23 H3). subst. auto.
Qed.

Lemma later_refl w : later w w.
Proof. intros a c H. exists c. split; [done | apply later_cell_refl]. Qed.

Lemma later_trans w1 w2 w3 : later w1 w2 -> later w2 w3 -> later w1 w3.
Proof.
  intros H12 H23 a c H. destruct (H12 a c H) as (c2 & H2 & L2).
  destruct (H23 a c2 H2) as (c3 & H3 & L3).
  exists c3. split; [done | by eapply later_cell_trans].
Qed.

Lemma later_cerr h l l' : later (World h l) (World h l').
Proof. intros a c H. exists c. split; [done | apply later_cell_refl]. Qed.

Lemma later_store h l a c :
  (forall c0, h !! a = Some c0 -> later_cell c0 c) ->
  later (World h l) (World (<[a := c]> h) l).
Proof.
  intros Hc b c0 Hb. cbn in *. destruct (decide (a = b)) as [-> |].
  - exists c. rewrite lookup_insert_eq. split; [done | by apply Hc].
  - exists c0. rewrite lookup_insert_ne by done.
    split; [done | apply later_cell_refl].
Qed.

Lemma later_alloc h l c :
  later (World h l) (World (<[fresh (dom h) := c]> h) l).
Proof.
  apply later_store. intros c0 H0.
  pose proof (is_fresh (dom h)) as F. exfalso. apply F.
  apply elem_of_dom. by eexists.
Qed.

Lemma keeps_bind {A B} (m : M ok_t err_t A) (k : A -> M ok_t err_t B) :
  keeps m -> (forall a, keeps (k a)) -> keeps (bind m k).
Proof.
  intros Hm Hk w. unfold bind. specialize (Hm w).
  destruct (m w) as [[a | |] w1]; cbn in *; [| done | done].
  eapply later_trans; [exact Hm | apply Hk].
Qed.

Lemma keeps_ret {A} (a : A) : keeps (@ret ok_t err_t A a).
Proof. intros w. apply later_refl. Qed.

Lemma keeps_alloc c : keeps (alloc c).
Proof. intros [h l]. apply later_alloc. Qed.

Ltac run_load h a :=
  cbv [Ok Err Success_ctor Failure_ctor Result_from_Success
       Result_from_Failure Result_dtor Result_copy Result_Ok Result_Err
       load_ok_t load_err_t load_Success load_Failure load_Result
       bind load ret undefined store alloc heap cerr snd fst
       m_success m_storage];
  destruct (h !! a) as [[| | | | [[] []]] |] eqn:?E; cbn;
  try apply later_refl.

Ltac stored E :=
  apply later_store; intros ? ?H0; rewrite E in H0;
  injection H0 as <-; cbn.

Lemma keeps_Ok cat value : keeps (@Ok ok_t err_t cat value).
Proof.
  intros [h l]. run_load h value.
  destruct (binds_rvalue_ref _); cbn;
    (eapply later_trans; [| apply later_alloc]); stored E; [done | auto].
Qed.

Lemma keeps_Err cat value : keeps (@Err ok_t err_t cat value).
Proof.
  intros [h l]. run_load h value.
  destruct (binds_rvalue_ref _); cbn;
    (eapply later_trans; [| apply later_alloc]); stored E; [done | auto].
Qed.

Lemma keeps_Result_from_Success ok :
  keeps (@Result_from_Success ok_t err_t ok).
Proof.
  intros [h l]. run_load h ok.
  eapply later_trans; [| apply later_alloc]. stored E. auto.
Qed.

Lemma keeps_Result_from_Failure err :
  keeps (@Result_from_Failure ok_t err_t err).
Proof.
  intros [h l]. run_load h err.
  eapply later_trans; [| apply later_alloc]. stored E. auto.
Qed.

Lemma keeps_Result_dtor this : keeps (@Result_dtor ok_t err_t this).
Proof.
  intros [h l]. run_load h this; stored E; (split; [done |]);
    rewrite Bool.andb_false_r; discriminate.
Qed.

Lemma keeps_Result_copy result : keeps (@Result_copy ok_t err_t result).
Proof.
  intros [h l]. run_load h result;
    (eapply later_trans; [| apply later_alloc]); stored E; auto.
Qed.

Lemma keeps_load_Result_bind {B} result (k : Result ok_t err_t -> M ok_t err_t B) :
  (forall r w, heap w !! result = Some (c_Result r) -> later w (snd (k r w))) ->
  keeps (bind (load_Result result) k).
Proof.
  intros Hk w. unfold bind at 1, load_Result, bind, load.
  destruct (heap w !! result) as [[| | | | r] |] eqn:E; cbn;
    try apply later_refl.
  by apply Hk.
Qed.

Lemma later_bind {A B} (m : M ok_t err_t A) (k : A -> M ok_t err_t B) w :
  later w (snd (m w)) -> (forall a, keeps (k a)) ->
  later w (snd (bind m k w)).
Proof.
  intros Hm Hk. unfold bind.
  destruct (m w) as [[a | |] w1]; cbn in *; [| done | done].
  eapply later_trans; [exact Hm | apply Hk].
Qed.

Lemma keeps_Result_move result : keeps (@Result_move ok_t err_t result).
Proof.
  unfold Result_move. apply keeps_load_Result_bind. intros r [h l] E.
  apply later_bind.
  - cbn in E. destruct r as [[] [o | e]];
      cbv [Result_Ok Result_Err bind ret undefined store alloc heap cerr
           snd fst m_success m_storage]; cbn; try apply later_refl;
      (eapply later_trans; [| apply later_alloc]); stored E;
      (split; [done | discriminate]).
  - intros this. apply keeps_bind; [apply keeps_Result_dtor |].
    intros _. apply keeps_ret.
Qed.

Lemma read_only_keeps {A} (m : M ok_t err_t A) : read_only m -> keeps m.
Proof.
  intros Hm w a c H. destruct (Hm w) as [Hh _]. exists c.
  split; [by rewrite Hh | apply later_cell_refl].
Qed.

Lemma read_only_preserves {A} (m : M ok_t err_t A) :
  read_only m -> preserves m.
Proof. intros Hm w H a c Ha. destruct (Hm w) as [Hh _]. rewrite Hh in Ha. eauto. Qed.

Ltac run_accessor h this :=
  cbv [GetErr operator_bool ErrorTerminate cerr_write std_terminate
       Result_Ok Result_Err load_Result bind load ret undefined
       heap cerr snd fst m_success m_storage negb];
  destruct (h !! this) as [[| | | | [[] []]] |]; cbn.

Ltac read_only_case :=
  split; [done |]; split; [| done];
  first [ by exists []; rewrite app_nil_r
        | eexists; rewrite <- app_assoc; reflexivity ].

Lemma read_only_operator_bool this :
  read_only (@operator_bool ok_t err_t this).
Proof. intros [h l]. run_accessor h this; read_only_case. Qed.

Lemma read_only_GetErr this : read_only (@GetErr ok_t err_t this).
Proof. intros [h l]. run_accessor h this; read_only_case. Qed.

Lemma read_only_Expect expect this msg :
  @Expect ok_t err_t = Some expect -> read_only (expect this msg).
Proof.
  unfold Expect. destruct (nullptr_converts ok_t); [| done].
  intros [= <-] [h l]. run_accessor h this; try read_only_case.
  all: destruct (sentinel ok_t); read_only_case.
Qed.

Lemma read_only_GetOk get_ok this :
  @GetOk ok_t err_t = Some get_ok -> read_only (get_ok this).
Proof.
  unfold GetOk. destruct (negb _); [| done]. intros [= <-] [h l].
  run_accessor h this; read_only_case.
Qed.

Lemma read_only_TryGet T try_get this d :
  @TryGet ok_t err_t T = Some try_get -> read_only (try_get this d).
Proof.
  unfold TryGet. destruct (negb _); [| done].
  destruct (implicit_conversion ok_t T); [| done]. intros [= <-] [h l].
  run_accessor h this; read_only_case.
Qed.

End Later.

Section Answers.

Context {ok_t err_t : cpp_type}.
Implicit Types (w : world ok_t err_t) (r : Result ok_t err_t).

Lemma fresh_insert_unused (h : gmap addr (cell ok_t err_t)) a c :
  h !! fresh (dom (<[a := c]> h)) = None /\ fresh (dom (<[a := c]> h)) <> a.
Proof.
  pose proof (is_fresh (dom (<[a := c]> h))) as F.
  set (x := fresh (dom (<[a := c]> h))) in *.
  assert (N : <[a := c]> h !! x = None) by by apply not_elem_of_dom.
  assert (x <> a) by (intros ->; by rewrite lookup_insert_eq in N).
  split; [| done]. by rewrite lookup_insert_ne in N.
Qed.

Lemma GetErr_unfold this w r :
  heap w !! this = Some (c_Result r) ->
  GetErr this w =
    bind (if m_success r then ErrorTerminate GetErr_message else ret tt)
      (fun _ => bind (Result_Err r) (fun e => ret (val e))) w.
Proof.
  intros Hr. unfold GetErr, bind at 1. by rewrite (load_Result_eq _ _ _ Hr).
Qed.

Lemma GetOk_unfold get_ok this w r :
  GetOk = Some get_ok ->
  heap w !! this = Some (c_Result r) ->
  get_ok this w =
    bind (if negb (m_success r) then ErrorTerminate GetOk_message else ret tt)
      (fun _ => bind (Result_Ok r) (fun o => ret (val o))) w.
Proof.
  unfold GetOk. destruct (negb _); [| done]. intros [= <-] Hr.
  unfold bind at 1. by rewrite (load_Result_eq _ _ _ Hr).
Qed.

(** Two containers with the same discriminant and the same payload value
    answer alike. *)
Lemma answers_like_same a w1 r1 b w2 r2 :
  heap w1 !! a = Some (c_Result r1) ->
  heap w2 !! b = Some (c_Result r2) ->
  m_success r1 = m_success r2 ->
  payload_value (m_storage r1) = payload_value (m_storage r2) ->
  answers_like a w1 b w2.
Proof.
  intros H1 H2 Hs Hv. unfold answers_like.
  rewrite (operator_bool_eq _ _ _ H1), (operator_bool_eq _ _ _ H2).
  rewrite (GetErr_unfold _ _ _ H1), (GetErr_unfold _ _ _ H2).
  split; [by rewrite Hs |].
  assert (HE : forall expect msg, Expect = Some expect ->
                 fst (expect a msg w1) = fst (expect b msg w2)).
  { intros expect msg He.
    rewrite (Expect_unfold _ _ _ _ _ He H1), (Expect_unfold _ _ _ _ _ He H2).
    destruct r1 as [s1 [o1 | e1]], r2 as [s2 [o2 | e2]]; cbn in *;
      simplify_eq; destruct s2; cbn; unfold bind;
      rewrite ?ErrorTerminate_eq; cbn; destruct (sentinel ok_t); cbn;
      congruence. }
  assert (HG : forall g, GetOk = Some g -> fst (g a w1) = fst (g b w2)).
  { intros g Hg.
    rewrite (GetOk_unfold _ _ _ _ Hg H1), (GetOk_unfold _ _ _ _ Hg H2).
    destruct r1 as [s1 [o1 | e1]], r2 as [s2 [o2 | e2]]; cbn in *;
      simplify_eq; destruct s2; cbn; unfold bind;
      rewrite ?ErrorTerminate_eq; cbn; congruence. }
  assert (HT : forall T t d, TryGet T = Some t ->
                 fst (t a d w1) = fst (t b d w2)).
  { intros T t d Ht.
    destruct (TryGet_unfold _ _ Ht) as (convert & _ & Hbody).
    rewrite (Hbody _ _ _ _ H1), (Hbody _ _ _ _ H2).
    destruct r1 as [s1 [o1 | e1]], r2 as [s2 [o2 | e2]]; cbn in *;
      simplify_eq; destruct s2; cbn; congruence. }
  split_and!; try done.
  destruct r1 as [s1 [o1 | e1]], r2 as [s2 [o2 | e2]]; cbn in *;
    simplify_eq; destruct s2; cbn; unfold bind;
    rewrite ?ErrorTerminate_eq; cbn; congruence.
Qed.

End Answers.

(** ** Factories and wrappers *)

(** X1.  [Ok(value)] on an argument object holding [v] creates a new
    [Success] wrapper whose value is a fresh object holding [v].  The
    argument is left exactly as it was when the argument expression is
    an lvalue or const, and is moved from (not destroyed) when it is a
    non-const rvalue.  No other object changes and nothing reaches the
    error stream. *)
Theorem Ok_spec (ok_t err_t : cpp_type) (c : expr_cat) (value : addr)
    (w : world ok_t err_t) (o : object (denote ok_t)) :
  heap w !! value = Some (c_ok_t o) ->
  exists wrapper w' o',
    Ok c value w = (Returned wrapper, w') /\
    heap w !! wrapper = None /\
    heap w' !! wrapper = Some (c_Success (fresh_object (val o))) /\
    heap w' !! value = Some (c_ok_t o') /\
    (is_rvalue c = false \/ is_const c = true -> o' = o) /\
    (is_rvalue c = true -> is_const c = false ->
       moved_from o' = true /\ dtor_runs o' = dtor_runs o) /\
    (forall a, a <> wrapper -> a <> value -> heap w' !! a = heap w !! a) /\
    cerr w' = cerr w.
Proof.
  intros H. rewrite (Ok_eq c value w o H). cbn zeta.
  destruct (fresh_insert_unused (heap w) value (c_ok_t (forwarded c o)))
    as [Hnone Hne].
  eexists _, _, (forwarded c o). split; [reflexivity |]. cbn.
  split_and!; try done.
  - apply lookup_insert_eq.
  - rewrite lookup_insert_ne by done. apply lookup_insert_eq.
  - unfold forwarded, binds_rvalue_ref. by intros [-> | ->]; destruct c as [[] []].
  - unfold forwarded, binds_rvalue_ref. by intros -> ->.
  - intros a Ha1 Ha2. by rewrite !lookup_insert_ne.
Qed.

(** X2.  [Err(value)] does the same with a [Failure] wrapper: the wrapper
    is a new object carrying the argument's value; an lvalue or const
    argument is left as it was, a non-const rvalue is moved from; nothing
    else changes. *)
Theorem Err_spec (ok_t err_t : cpp_type) (c : expr_cat) (value : addr)
    (w : world ok_t err_t) (e : object (denote err_t)) :
  heap w !! value = Some (c_err_t e) ->
  exists wrapper w' e',
    Err c value w = (Returned wrapper, w') /\
    heap w !! wrapper = None /\
    heap w' !! wrapper = Some (c_Failure (fresh_object (val e))) /\
    heap w' !! value = Some (c_err_t e') /\
    (is_rvalue c = false \/ is_const c = true -> e' = e) /\
    (is_rvalue c = true -> is_const c = false ->
       moved_from e' = true /\ dtor_runs e' = dtor_runs e) /\
    (forall a, a <> wrapper -> a <> value -> heap w' !! a = heap w !! a) /\
    cerr w' = cerr w.
Proof.
  intros H. rewrite (Err_eq c value w e H). cbn zeta.
  destruct (fresh_insert_unused (heap w) value (c_err_t (forwarded c e)))
    as [Hnone Hne].
  eexists _, _, (forwarded c e). split; [reflexivity |]. cbn.
  split_and!; try done.
  - apply lookup_insert_eq.
  - rewrite lookup_insert_ne by done. apply lookup_insert_eq.
  - unfold forwarded, binds_rvalue_ref. by intros [-> | ->]; destruct c as [[] []].
  - unfold forwarded, binds_rvalue_ref. by intros -> ->.
  - intros a Ha1 Ha2. by rewrite !lookup_insert_ne.
Qed.

(** X3.  In [Result<None, err_t>], a container built from the wrapper
    that the nullary [Ok()] returns is a new object in the success state
    holding [nullptr]: its boolean conversion is true and [Expect]
    returns [nullptr] for every message.  The objects that existed
    before are unchanged and nothing reaches the error stream. *)
Theorem Ok_None_spec (err_t : cpp_type) (w : world t_None err_t)
    (msg : string) :
  exists r w',
    bind Ok_None Result_from_Success w = (Returned r, w') /\
    heap w !! r = None /\
    heap w' !! r =
      Some (c_Result (MkResult true
              (@HoldsOk t_None err_t (fresh_object nullptr)))) /\
    (forall a, is_Some (heap w !! a) -> heap w' !! a = heap w !! a) /\
    cerr w' = cerr w /\
    operator_bool r w' = (Returned true, w') /\
    exists expect,
      @Expect t_None err_t = Some expect /\
      expect r msg w' = (Returned nullptr, w').
Proof.
  destruct (declare_from_Ok_eq (ok_t := t_None) prvalue nullptr w)
    as (r & w' & Hd & Hn & Hr & Hf & Hc).
  exists r, w'. split.
  { unfold Ok_None. rewrite bind_assoc. exact Hd. }
  split_and!; try done.
  - by rewrite (operator_bool_eq _ _ _ Hr).
  - assert (Hm : exists e, @Expect t_None err_t = Some e) by (by eexists).
    destruct Hm as [e He]. exists e. split; [exact He |].
    by rewrite (Expect_unfold _ _ _ _ _ He Hr).
Qed.

(** ** Destruction, copy and move *)

(** X4.  The destructor of a consistent container runs the destructor of
    the stored payload exactly once more and leaves the discriminant as
    it is; no other object changes and nothing reaches the error
    stream. *)
Theorem Result_dtor_spec (ok_t err_t : cpp_type) (this : addr)
    (w : world ok_t err_t) (r : Result ok_t err_t) :
  heap w !! this = Some (c_Result r) ->
  consistent r = true ->
  exists w' r',
    Result_dtor this w = (Returned tt, w') /\
    heap w' !! this = Some (c_Result r') /\
    m_success r' = m_success r /\
    consistent r' = true /\
    payload_dtor_runs (m_storage r') = S (payload_dtor_runs (m_storage r)) /\
    payload_moved_from (m_storage r') = payload_moved_from (m_storage r) /\
    (forall a, a <> this -> heap w' !! a = heap w !! a) /\
    cerr w' = cerr w.
Proof.
  intros Hr Hc. rewrite (Result_dtor_eq _ _ _ Hr Hc).
  eexists _, _. split; [reflexivity |]. cbn.
  split; [apply lookup_insert_eq |].
  split_and!; try done; try by destruct r as [[] [o | e]].
  intros a Ha. by rewrite lookup_insert_ne.
Qed.

(** X5.  Move construction from a consistent container creates a new
    container with the source's discriminant and a fresh payload holding
    the source's payload value.  The source keeps its discriminant; its
    payload has been moved from and its destructor has run once.  No
    other object changes and nothing reaches the error stream. *)
Theorem Result_move_spec (ok_t err_t : cpp_type) (result : addr)
    (w : world ok_t err_t) (r : Result ok_t err_t) :
  heap w !! result = Some (c_Result r) ->
  consistent r = true ->
  exists this w' r' rs,
    Result_move result w = (Returned this, w') /\
    heap w !! this = None /\
    this <> result /\
    heap w' !! this = Some (c_Result r') /\
    m_success r' = m_success r /\
    consistent r' = true /\
    payload_value (m_storage r') = payload_value (m_storage r) /\
    payload_pristine (m_storage r') = true /\
    heap w' !! result = Some (c_Result rs) /\
    m_success rs = m_success r /\
    payload_moved_from (m_storage rs) = true /\
    payload_dtor_runs (m_storage rs) = S (payload_dtor_runs (m_storage r)) /\
    (forall a, a <> this -> a <> result -> heap w' !! a = heap w !! a) /\
    cerr w' = cerr w.
Proof.
  intros Hr Hc. rewrite (Result_move_eq _ _ _ Hr Hc). cbn zeta.
  match goal with
  | |- context [fresh (dom (<[result := ?c]> (heap w)))] =>
      destruct (fresh_insert_unused (heap w) result c) as [Hnone Hne]
  end.
  eexists _, _, _, _. split; [reflexivity |]. cbn.
  split; [done |]. split; [done |].
  split; [rewrite lookup_insert_ne by done; apply lookup_insert_eq |].
  split; [done |].
  split; [by destruct r as [[] [o | e]] |].
  split; [by destruct r as [? [o | e]] |].
  split; [by destruct r as [? [o | e]] |].
  split; [apply lookup_insert_eq |].
  split; [done |].
  split; [by destruct r as [? [o | e]] |].
  split; [by destruct r as [? [o | e]] |].
  split; [| done].
  intros a Ha1 Ha2. by rewrite !lookup_insert_ne.
Qed.

(** X6.  When a consistent container is copied and then both the copy
    and the source are destroyed, the destructor of each payload runs
    exactly once: the copy's payload ends with one run, the source's
    payload with one more than it had. *)
Theorem copy_then_destroy_both (ok_t err_t : cpp_type) (result : addr)
    (w : world ok_t err_t) (r : Result ok_t err_t) :
  heap w !! result = Some (c_Result r) ->
  consistent r = true ->
  exists this w' r1 r2,
    bind (Result_copy result) (fun this =>
      bind (Result_dtor this) (fun _ =>
        bind (Result_dtor result) (fun _ => ret this))) w
      = (Returned this, w') /\
    this <> result /\
    heap w' !! this = Some (c_Result r1) /\
    payload_dtor_runs (m_storage r1) = 1%nat /\
    heap w' !! result = Some (c_Result r2) /\
    payload_dtor_runs (m_storage r2) = S (payload_dtor_runs (m_storage r)) /\
    payload_moved_from (m_storage r2) = payload_moved_from (m_storage r).
Proof.
  intros Hr Hc.
  pose proof (fresh_ne _ _ _ Hr) as Hne.
  set (this := fresh (dom (heap w))) in *.
  set (rc := MkResult (m_success r) (map_payload duplicate (m_storage r))).
  assert (Hcc : consistent rc = true) by (by destruct r as [[] [o | e]]).
  set (w1 := World (<[this := c_Result rc]> (heap w)) (cerr w)).
  assert (H1 : heap w1 !! this = Some (c_Result rc)) by apply lookup_insert_eq.
  set (rd := MkResult (m_success rc) (map_payload (@destroy) (m_storage rc))).
  set (w2 := World (<[this := c_Result rd]> (heap w1)) (cerr w1)).
  assert (H2 : heap w2 !! result = Some (c_Result r)).
  { cbn. by rewrite !lookup_insert_ne. }
  exists this. eexists _, _, _. split.
  { rewrite (bind_eq _ _ _ _ _ (Result_copy_eq _ _ _ Hr Hc)).
    rewrite (bind_eq _ _ _ _ _ (Result_dtor_eq _ _ _ H1 Hcc)).
    rewrite (bind_eq _ _ _ _ _ (Result_dtor_eq _ _ _ H2 Hc)).
    reflexivity. }
  cbn. split; [done |].
  split; [rewrite lookup_insert_ne by done; apply lookup_insert_eq |].
  split; [by destruct r as [? [o | e]] |].
  split; [apply lookup_insert_eq |].
  split; by destruct r as [? [o | e]].
Qed.

(** ** Accessors together *)

(** X7.  Every accessor is read-only, whatever address it is called on:
    it changes no object, it only ever appends to the error stream, and
    whenever it returns the whole state is as it was. *)
Theorem accessors_read_only (ok_t err_t : cpp_type) (this : addr) :
  read_only (@operator_bool ok_t err_t this) /\
  read_only (@GetErr ok_t err_t this) /\
  (forall expect msg,
      @Expect ok_t err_t = Some expect -> read_only (expect this msg)) /\
  (forall get_ok, @GetOk ok_t err_t = Some get_ok -> read_only (get_ok this)) /\
  (forall T try_get d,
      @TryGet ok_t err_t T = Some try_get -> read_only (try_get this d)).
Proof.
  split_and!.
  - apply read_only_operator_bool.
  - apply read_only_GetErr.
  - intros e msg He. by apply read_only_Expect.
  - intros g Hg. by apply read_only_GetOk.
  - intros T t d Ht. by eapply read_only_TryGet.
Qed.

(** X8.  The boolean conversion tells which accessors return.  On a
    consistent container, if it yields true then [GetOk] and [Expect],
    where they are members, return a value and [GetErr] terminates the
    process; if it yields false then [GetErr] returns a value and
    [GetOk] and [Expect], where they are members, terminate the
    process. *)
Theorem bool_guards_accessors (ok_t err_t : cpp_type) (this : addr)
    (w : world ok_t err_t) (r : Result ok_t err_t) :
  heap w !! this = Some (c_Result r) ->
  consistent r = true ->
  exists b,
    operator_bool this w = (Returned b, w) /\
    (b = true ->
       (forall expect msg, Expect = Some expect ->
          exists v, expect this msg w = (Returned v, w)) /\
       (forall get_ok, GetOk = Some get_ok ->
          exists v, get_ok this w = (Returned v, w)) /\
       fst (GetErr this w) = Terminated) /\
    (b = false ->
       (exists e, GetErr this w = (Returned e, w)) /\
       (forall expect msg, Expect = Some expect ->
          fst (expect this msg w) = Terminated) /\
       (forall get_ok, GetOk = Some get_ok ->
          fst (get_ok this w) = Terminated)).
Proof.
  intros Hr Hc. exists (m_success r).
  split; [by apply operator_bool_eq |].
  split; intros Hs.
  - destruct (consistent_success _ Hc Hs) as [o Ho]. split_and!.
    + intros e msg He. rewrite (Expect_unfold _ _ _ _ _ He Hr), Hs.
      unfold bind, Result_Ok. cbn. rewrite Ho.
      destruct (sentinel ok_t); by eexists.
    + intros g Hg. rewrite (GetOk_unfold _ _ _ _ Hg Hr), Hs.
      unfold bind, Result_Ok. cbn. rewrite Ho. by eexists.
    + rewrite (GetErr_unfold _ _ _ Hr), Hs. unfold bind.
      by rewrite ErrorTerminate_eq.
  - destruct (consistent_failure _ Hc Hs) as [e He]. split_and!.
    + rewrite (GetErr_unfold _ _ _ Hr), Hs. unfold bind, Result_Err. cbn.
      rewrite He. by eexists.
    + intros ex msg Hex. rewrite (Expect_unfold _ _ _ _ _ Hex Hr), Hs.
      unfold bind. cbn [negb]. by rewrite ErrorTerminate_eq.
    + intros g Hg. rewrite (GetOk_unfold _ _ _ _ Hg Hr), Hs. unfold bind.
      cbn [negb]. by rewrite ErrorTerminate_eq.
Qed.

(** X9.  When the success payload type is not the sentinel, the
    accessors for the success payload agree on any container, for
    [TryGet] with a default of the success payload type and for [Expect]
    where it is a member: if [GetOk] returns [v] then [TryGet] returns
    [v] for every such default and [Expect] returns [v] for every
    message; if [GetOk] terminates the process then [TryGet] returns
    its default and [Expect] terminates as well. *)
Theorem success_accessors_agree (ok_t err_t : cpp_type)
    (get_ok : addr -> M ok_t err_t (denote ok_t))
    (try_get : addr -> denote ok_t -> M ok_t err_t (denote ok_t))
    (this : addr) (w : world ok_t err_t) :
  GetOk = Some get_ok ->
  TryGet ok_t = Some try_get ->
  (forall v, fst (get_ok this w) = Returned v ->
     (forall d, try_get this d w = (Returned v, w)) /\
     (forall expect msg, Expect = Some expect ->
        expect this msg w = (Returned v, w))) /\
  (fst (get_ok this w) = Terminated ->
     (forall d, try_get this d w = (Returned d, w)) /\
     (forall expect msg, Expect = Some expect ->
        fst (expect this msg w) = Terminated)).
Proof.
  intros Hg Ht.
  assert (Hns : is_same_v ok_t t_None = false).
  { unfold GetOk in Hg. by destruct (is_same_v ok_t t_None). }
  assert (Hn : sentinel ok_t = None).
  { destruct (sentinel ok_t) eqn:E; [| done].
    assert (Hs : is_same_v ok_t t_None = true)
      by (apply sentinel_is_same_v; rewrite E; by eexists).
    congruence. }
  assert (Hv : ok_t <> t_void).
  { intros ->. unfold TryGet in Ht. by cbn in Ht. }
  destruct (TryGet_own_type (ok_t := ok_t) (err_t := err_t) Hns Hv)
    as (t' & Ht' & Hbody).
  rewrite Ht in Ht'. injection Ht' as <-.
  destruct (heap w !! this) as [c |] eqn:E.
  2: { revert Hg. unfold GetOk. destruct (negb _); [| done].
       intros [= <-]. unfold bind, load_Result, bind, load.
       rewrite E. by split. }
  destruct c as [| | | | r].
  1-4: revert Hg; unfold GetOk; (destruct (negb _); [| done]);
       intros [= <-]; unfold bind, load_Result, bind, load;
       rewrite E; by split.
  rewrite (GetOk_unfold _ _ _ _ Hg E).
  split.
  - intros v Hval. split.
    + intros d. rewrite (Hbody _ _ _ _ E).
      revert Hval. destruct r as [[] [o | e]]; cbn; unfold bind; cbn;
        rewrite ?ErrorTerminate_eq; cbn; try done.
      by intros [= <-].
    + intros ex msg Hex. rewrite (Expect_unfold _ _ _ _ _ Hex E), Hn.
      revert Hval. destruct r as [[] [o | e]]; cbn; unfold bind; cbn;
        rewrite ?ErrorTerminate_eq; cbn; try done.
      by intros [= <-].
  - intros Hval. split.
    + intros d. rewrite (Hbody _ _ _ _ E).
      revert Hval. destruct r as [[] [o | e]]; cbn; unfold bind; cbn;
        rewrite ?ErrorTerminate_eq; cbn; done.
    + intros ex msg Hex. rewrite (Expect_unfold _ _ _ _ _ Hex E), Hn.
      revert Hval. destruct r as [[] [o | e]]; cbn; unfold bind; cbn;
        rewrite ?ErrorTerminate_eq; cbn; done.
Qed.

(** X10.  A copy answers every accessor as its source does, and copying
    does not change what the source answers. *)
Theorem copy_answers_like_source (ok_t err_t : cpp_type) (result : addr)
    (w : world ok_t err_t) (r : Result ok_t err_t) :
  heap w !! result = Some (c_Result r) ->
  consistent r = true ->
  exists this w',
    Result_copy result w = (Returned this, w') /\
    this <> result /\
    answers_like this w' result w' /\
    answers_like result w' result w.
Proof.
  intros Hr Hc. rewrite (Result_copy_eq _ _ _ Hr Hc).
  pose proof (fresh_ne _ _ _ Hr) as Hne.
  eexists _, _. split; [reflexivity |]. split; [done |].
  assert (Hs : heap (World (<[fresh (dom (heap w)) :=
                   c_Result (MkResult (m_success r)
                               (map_payload duplicate (m_storage r)))]>
                   (heap w)) (cerr w)) !! result = Some (c_Result r)).
  { cbn. by rewrite lookup_insert_ne. }
  split.
  - eapply answers_like_same; [apply lookup_insert_eq | exact Hs | done |].
    by destruct r as [? [o | e]].
  - by eapply answers_like_same.
Qed.

(** X11.  The container that move construction creates answers every
    accessor as the source did before the move, and the moved-from
    source still reports the discriminant it had. *)
Theorem move_answers_like_source (ok_t err_t : cpp_type) (result : addr)
    (w : world ok_t err_t) (r : Result ok_t err_t) :
  heap w !! result = Some (c_Result r) ->
  consistent r = true ->
  exists this w',
    Result_move result w = (Returned this, w') /\
    this <> result /\
    answers_like this w' result w /\
    operator_bool result w' = (Returned (m_success r), w').
Proof.
  intros Hr Hc. rewrite (Result_move_eq _ _ _ Hr Hc). cbn zeta.
  match goal with
  | |- context [fresh (dom (<[result := ?c]> (heap w)))] =>
      destruct (fresh_insert_unused (heap w) result c) as [Hnone Hne]
  end.
  eexists _, _. split; [reflexivity |]. split; [done |]. split.
  - eapply answers_like_same; [| exact Hr | |].
    + cbn. rewrite lookup_insert_ne by done. apply lookup_insert_eq.
    + done.
    + by destruct r as [? [o | e]].
  - by rewrite (operator_bool_eq result _
                  (MkResult (m_success r)
                     (map_payload (@destroy)
                        (map_payload moved_out (m_storage r)))))
      by apply lookup_insert_eq.
Qed.

(** X12.  Whatever the argument expression and the starting state, a
    container declared from [Ok(v)] converts to true and a container
    declared from [Err(e)] converts to false.  Where [Expect] is a
    member, it returns [v] on the former unless the success payload
    type is the sentinel, and on the latter [Expect msg] puts [msg] and
    [std::endl] on the error stream and terminates the process. *)
Theorem declared_containers (ok_t err_t : cpp_type) (c : expr_cat)
    (w : world ok_t err_t) :
  (forall v, exists w',
      bind (declare_from_Ok c v) operator_bool w = (Returned true, w') /\
      cerr w' = cerr w) /\
  (forall expect v msg,
      Expect = Some expect -> sentinel ok_t = None -> exists w',
      bind (declare_from_Ok c v) (fun r => expect r msg) w
        = (Returned v, w') /\
      cerr w' = cerr w) /\
  (forall e, exists w',
      bind (declare_from_Err c e) operator_bool w = (Returned false, w') /\
      cerr w' = cerr w) /\
  (forall expect e msg,
      Expect = Some expect -> exists w',
      bind (declare_from_Err c e) (fun r => expect r msg) w
        = (Terminated, w') /\
      cerr w' = cerr w ++ [Put msg; Endl]).
Proof.
  split_and!.
  - intros v.
    destruct (declare_from_Ok_eq c v w) as (r & w' & Hd & _ & Hr & _ & Hc).
    exists w'. split; [| done].
    by rewrite (bind_eq _ _ _ _ _ Hd), (operator_bool_eq _ _ _ Hr).
  - intros ex v msg Hex Hn.
    destruct (declare_from_Ok_eq c v w) as (r & w' & Hd & _ & Hr & _ & Hc).
    exists w'. split; [| done].
    rewrite (bind_eq _ _ _ _ _ Hd), (Expect_unfold _ _ _ _ _ Hex Hr), Hn.
    reflexivity.
  - intros e.
    destruct (declare_from_Err_eq c e w) as (r & w' & Hd & _ & Hr & _ & Hc).
    exists w'. split; [| done].
    by rewrite (bind_eq _ _ _ _ _ Hd), (operator_bool_eq _ _ _ Hr).
  - intros ex e msg Hex.
    destruct (declare_from_Err_eq c e w) as (r & w' & Hd & _ & Hr & _ & Hc).
    eexists. split.
    + rewrite (bind_eq _ _ _ _ _ Hd), (Expect_unfold _ _ _ _ _ Hex Hr).
      cbn [m_success negb]. unfold bind at 1.
      rewrite ErrorTerminate_eq. reflexivity.
    + cbn. by rewrite Hc.
Qed.

(** ** Invariants of the store *)

(** X13.  The discriminant of every container always matches what its
    storage holds: this is so in a process without objects, and the
    factories, every constructor, the destructor and every accessor keep
    it so, however the call ends. *)
Theorem operations_keep_consistency (ok_t err_t : cpp_type) :
  heap_consistent (@start ok_t err_t) /\
  (forall c a, preserves (@Ok ok_t err_t c a)) /\
  (forall c a, preserves (@Err ok_t err_t c a)) /\
  (forall a, preserves (@Result_from_Success ok_t err_t a)) /\
  (forall a, preserves (@Result_from_Failure ok_t err_t a)) /\
  (forall a, preserves (@Result_copy ok_t err_t a)) /\
  (forall a, preserves (@Result_move ok_t err_t a)) /\
  (forall a, preserves (@Result_dtor ok_t err_t a)) /\
  (forall a, preserves (@operator_bool ok_t err_t a)) /\
  (forall a, preserves (@GetErr ok_t err_t a)) /\
  (forall expect a msg,
      @Expect ok_t err_t = Some expect -> preserves (expect a msg)) /\
  (forall get_ok a, @GetOk ok_t err_t = Some get_ok -> preserves (get_ok a)) /\
  (forall T try_get a d,
      @TryGet ok_t err_t T = Some try_get -> preserves (try_get a d)).
Proof.
  split_and!.
  - apply start_consistent.
  - apply preserves_Ok.
  - apply preserves_Err.
  - apply preserves_Result_from_Success.
  - apply preserves_Result_from_Failure.
  - apply preserves_Result_copy.
  - apply preserves_Result_move.
  - apply preserves_Result_dtor.
  - intros a. apply read_only_preserves, read_only_operator_bool.
  - intros a. apply read_only_preserves, read_only_GetErr.
  - intros e a msg He. by apply read_only_preserves, read_only_Expect.
  - intros g a Hg. by apply read_only_preserves, read_only_GetOk.
  - intros T t a d Ht. by eapply read_only_preserves, read_only_TryGet.
Qed.

(** X14.  No operation of the module removes an object or turns it into
    an object of another class, none changes the discriminant of an
    existing container, and an object that has not been moved from or
    destroyed afterwards is exactly as it was before. *)
Theorem operations_keep_objects (ok_t err_t : cpp_type) :
  (forall c a, keeps (@Ok ok_t err_t c a)) /\
  (forall c a, keeps (@Err ok_t err_t c a)) /\
  (forall a, keeps (@Result_from_Success ok_t err_t a)) /\
  (forall a, keeps (@Result_from_Failure ok_t err_t a)) /\
  (forall a, keeps (@Result_copy ok_t err_t a)) /\
  (forall a, keeps (@Result_move ok_t err_t a)) /\
  (forall a, keeps (@Result_dtor ok_t err_t a)) /\
  (forall a, keeps (@operator_bool ok_t err_t a)) /\
  (forall a, keeps (@GetErr ok_t err_t a)) /\
  (forall expect a msg,
      @Expect ok_t err_t = Some expect -> keeps (expect a msg)) /\
  (forall get_ok a, @GetOk ok_t err_t = Some get_ok -> keeps (get_ok a)) /\
  (forall T try_get a d,
      @TryGet ok_t err_t T = Some try_get -> keeps (try_get a d)).
Proof.
  split_and!.
  - apply keeps_Ok.
  - apply keeps_Err.
  - apply keeps_Result_from_Success.
  - apply keeps_Result_from_Failure.
  - apply keeps_Result_copy.
  - apply keeps_Result_move.
  - apply keeps_Result_dtor.
  - intros a. apply read_only_keeps, read_only_operator_bool.
  - intros a. apply read_only_keeps, read_only_GetErr.
  - intros e a msg He. by apply read_only_keeps, read_only_Expect.
  - intros g a Hg. by apply read_only_keeps, read_only_GetOk.
  - intros T t a d Ht. by eapply read_only_keeps, read_only_TryGet.
Qed.

(** ** The storage *)

(** X15.  Whatever the sizes and alignments of the two payload types,
    [_size] is the larger of the two sizes, so the storage has room for
    either payload.  [_align] is the alignment of the payload type that
    decides the size ([err_t] when the sizes are equal), so the storage
    is aligned for both payload types exactly when the other type does
    not ask for a stricter alignment. *)
Theorem storage_layout (sizeof alignof : cpp_type -> N)
    (ok_t err_t : cpp_type) :
  (sizeof ok_t <= _size sizeof ok_t err_t)%N /\
  (sizeof err_t <= _size sizeof ok_t err_t)%N /\
  _size sizeof ok_t err_t = N.max (sizeof ok_t) (sizeof err_t) /\
  ((alignof ok_t <= _align sizeof alignof ok_t err_t)%N /\
   (alignof err_t <= _align sizeof alignof ok_t err_t)%N <->
   if (sizeof err_t <? sizeof ok_t)%N
   then (alignof err_t <= alignof ok_t)%N
   else (alignof ok_t <= alignof err_t)%N).
Proof.
  unfold _size, _align.
  destruct (N.ltb_spec (sizeof err_t) (sizeof ok_t)); split_and!; lia.
Qed.

(** ** These theorems at concrete objects *)

Lemma Ok_spec_witness :
  heap int_3 !! 1%positive = Some (c_ok_t (fresh_object (3 : denote t_int))) /\
  (exists wrapper w',
     Ok lvalue 1%positive int_3 = (Returned wrapper, w') /\
     heap w' !! 1%positive = heap int_3 !! 1%positive) /\
  (exists wrapper w' o',
     Ok prvalue 1%positive int_3 = (Returned wrapper, w') /\
     heap w' !! 1%positive = Some (c_ok_t o') /\ moved_from o' = true).
Proof.
  split; [reflexivity |]. split.
  - destruct (Ok_spec t_int t_int lvalue 1%positive int_3 _ eq_refl)
      as (x & w' & o' & Hrun & _ & _ & Ho & Hsame & _).
    exists x, w'. split; [exact Hrun |].
    rewrite (Hsame (or_introl eq_refl)) in Ho. exact Ho.
  - destruct (Ok_spec t_int t_int prvalue 1%positive int_3 _ eq_refl)
      as (x & w' & o' & Hrun & _ & _ & Ho & _ & Hmoved & _).
    exists x, w', o'. split; [exact Hrun |]. split; [exact Ho |].
    exact (proj1 (Hmoved eq_refl eq_refl)).
Defined.

Lemma Err_spec_witness :
  heap err_int_3 !! 1%positive
    = Some (c_err_t (fresh_object (3 : denote t_int))) /\
  exists wrapper w',
    Err const_lvalue 1%positive err_int_3 = (Returned wrapper, w') /\
    heap w' !! 1%positive = heap err_int_3 !! 1%positive /\
    heap w' !! wrapper = Some (c_Failure (fresh_object (3 : denote t_int))).
Proof.
  split; [reflexivity |].
  destruct (Err_spec t_int t_int const_lvalue 1%positive err_int_3 _ eq_refl)
    as (x & w' & e' & Hrun & _ & Hw & He & Hsame & _).
  exists x, w'. split; [exact Hrun |]. split; [| exact Hw].
  rewrite (Hsame (or_intror eq_refl)) in He. exact He.
Defined.

Lemma Result_dtor_spec_witness :
  heap holding_3 !! 1%positive = Some (c_Result result_3) /\
  consistent result_3 = true /\
  exists w' r',
    Result_dtor 1%positive holding_3 = (Returned tt, w') /\
    heap w' !! 1%positive = Some (c_Result r') /\
    payload_dtor_runs (m_storage r') = 1%nat.
Proof.
  split; [reflexivity |]. split; [reflexivity |].
  destruct (Result_dtor_spec t_int t_int 1%positive holding_3 _
              eq_refl eq_refl)
    as (w' & r' & Hrun & Hr & _ & _ & Hd & _).
  exists w', r'. split; [exact Hrun |]. split; [exact Hr | exact Hd].
Defined.

Lemma Result_move_spec_witness :
  heap holding_error_0 !! 1%positive = Some (c_Result result_error_0) /\
  consistent result_error_0 = true /\
  exists this w' r',
    Result_move 1%positive holding_error_0 = (Returned this, w') /\
    heap w' !! this = Some (c_Result r') /\
    m_success r' = false /\
    payload_value (m_storage r') = inr 0.
Proof.
  split; [reflexivity |]. split; [reflexivity |].
  destruct (Result_move_spec t_int t_int 1%positive holding_error_0 _
              eq_refl eq_refl)
    as (this & w' & r' & rs & Hrun & _ & _ & Hr & Hs & _ & Hv & _).
  exists this, w', r'. split; [exact Hrun |]. split; [exact Hr |].
  split; [exact Hs | exact Hv].
Defined.

Lemma copy_then_destroy_both_witness :
  heap holding_3 !! 1%positive = Some (c_Result result_3) /\
  consistent result_3 = true /\
  exists this w' r1 r2,
    bind (Result_copy 1%positive) (fun this =>
      bind (Result_dtor this) (fun _ =>
        bind (Result_dtor 1%positive) (fun _ => ret this))) holding_3
      = (Returned this, w') /\
    heap w' !! this = Some (c_Result r1) /\
    payload_dtor_runs (m_storage r1) = 1%nat /\
    heap w' !! 1%positive = Some (c_Result r2) /\
    payload_dtor_runs (m_storage r2) = 1%nat.
Proof.
  split; [reflexivity |]. split; [reflexivity |].
  destruct (copy_then_destroy_both t_int t_int 1%positive holding_3 _
              eq_refl eq_refl)
    as (this & w' & r1 & r2 & Hrun & _ & H1 & Hd1 & H2 & Hd2 & _).
  exists this, w', r1, r2. by split_and!.
Defined.

Lemma accessors_read_only_witness :
  exists get_ok : addr -> M t_int t_int Z,
    @GetOk t_int t_int = Some get_ok /\
    heap (snd (get_ok 1%positive holding_error_0)) = heap holding_error_0 /\
    snd (GetErr 1%positive holding_error_0) = holding_error_0.
Proof.
  eexists. split; [reflexivity |].
  destruct (accessors_read_only t_int t_int 1%positive)
    as (_ & Herr & _ & Hok & _).
  split.
  - exact (proj1 (Hok _ eq_refl holding_error_0)).
  - exact (proj2 (proj2 (Herr holding_error_0)) 0 eq_refl).
Defined.

Lemma bool_guards_accessors_witness :
  heap holding_error_0 !! 1%positive = Some (c_Result result_error_0) /\
  consistent result_error_0 = true /\
  operator_bool 1%positive holding_error_0
    = (Returned false, holding_error_0) /\
  exists e, GetErr 1%positive holding_error_0 = (Returned e, holding_error_0).
Proof.
  split; [reflexivity |]. split; [reflexivity |].
  destruct (bool_guards_accessors t_int t_int 1%positive holding_error_0 _
              eq_refl eq_refl) as (b & Hb & _ & Hfalse).
  assert (E : b = false) by (by injection Hb as <-).
  split; [by rewrite Hb, E |]. exact (proj1 (Hfalse E)).
Defined.

Lemma success_accessors_agree_witness :
  exists (get_ok : addr -> M t_string t_int string)
         (try_get : addr -> string -> M t_string t_int string)
         (expect : addr -> string -> M t_string t_int string),
    @GetOk t_string t_int = Some get_ok /\
    @TryGet t_string t_int t_string = Some try_get /\
    @Expect t_string t_int = Some expect /\
    fst (get_ok 1%positive holding_hi) = Returned "hi" /\
    try_get 1%positive "other" holding_hi = (Returned "hi", holding_hi) /\
    expect 1%positive "x" holding_hi = (Returned "hi", holding_hi).
Proof.
  eexists _, _, _. split; [reflexivity |]. split; [reflexivity |].
  split; [reflexivity |]. split; [reflexivity |].
  destruct (proj1 (success_accessors_agree t_string t_int _ _ 1%positive
                     holding_hi eq_refl eq_refl) "hi" eq_refl)
    as [Htry Hexp].
  split; [exact (Htry "other") | exact (Hexp _ "x" eq_refl)].
Defined.

Lemma copy_answers_like_source_witness :
  heap holding_3 !! 1%positive = Some (c_Result result_3) /\
  consistent result_3 = true /\
  exists this w',
    Result_copy 1%positive holding_3 = (Returned this, w') /\
    fst (GetErr this w') = fst (GetErr 1%positive w').
Proof.
  split; [reflexivity |]. split; [reflexivity |].
  destruct (copy_answers_like_source t_int t_int 1%positive holding_3 _
              eq_refl eq_refl) as (this & w' & Hrun & _ & Hlike & _).
  exists this, w'. split; [exact Hrun |]. exact (proj1 (proj2 Hlike)).
Defined.

Lemma move_answers_like_source_witness :
  heap holding_hi !! 1%positive = Some (c_Result result_hi) /\
  consistent result_hi = true /\
  exists (expect : addr -> string -> M t_string t_int string) this w',
    @Expect t_string t_int = Some expect /\
    Result_move 1%positive holding_hi = (Returned this, w') /\
    fst (expect this "x" w') = fst (expect 1%positive "x" holding_hi).
Proof.
  split; [reflexivity |]. split; [reflexivity |].
  destruct (move_answers_like_source t_string t_int 1%positive holding_hi _
              eq_refl eq_refl) as (this & w' & Hrun & _ & Hlike & _).
  eexists _, this, w'. split; [reflexivity |]. split; [exact Hrun |].
  exact (proj1 (proj2 (proj2 Hlike)) _ "x" eq_refl).
Defined.

Lemma declared_containers_witness :
  sentinel t_string = None /\
  exists (expect : addr -> string -> M t_string t_int string) w',
    @Expect t_string t_int = Some expect /\
    bind (declare_from_Ok prvalue ("hi" : denote t_string))
      (fun r => expect r "x") (@start t_string t_int)
      = (Returned "hi", w').
Proof.
  split; [reflexivity |].
  destruct (proj1 (proj2 (declared_containers t_string t_int prvalue start))
              _ "hi" "x" eq_refl eq_refl) as (w' & Hrun & _).
  eexists _, w'. split; [reflexivity | exact Hrun].
Defined.

Lemma holding_3_consistent : heap_consistent holding_3.
Proof.
  intros a c H. unfold holding_3 in H. cbn [heap] in H.
  apply lookup_singleton_Some in H as [_ <-]. reflexivity.
Qed.

Lemma operations_keep_consistency_witness :
  heap_consistent holding_3 /\
  heap_consistent (snd (Result_move 1%positive holding_3)).
Proof.
  split; [exact holding_3_consistent |].
  destruct (operations_keep_consistency t_int t_int)
    as (_ & _ & _ & _ & _ & _ & Hmove & _).
  exact (Hmove 1%positive holding_3 holding_3_consistent).
Defined.

Lemma operations_keep_objects_witness :
  heap holding_3 !! 1%positive = Some (c_Result result_3) /\
  exists c',
    heap (snd (Result_move 1%positive holding_3)) !! 1%positive = Some c' /\
    later_cell (c_Result result_3) c'.
Proof.
  split; [reflexivity |].
  destruct (operations_keep_objects t_int t_int)
    as (_ & _ & _ & _ & _ & Hmove & _).
  exact (Hmove 1%positive holding_3 1%positive _ eq_refl).
Defined.

Lemma storage_layout_witness :
  _size example_sizeof t_int t_string = 32%N /\
  (example_alignof t_int <= _align example_sizeof example_alignof t_int t_string)%N /\
  (example_alignof t_string
     <= _align example_sizeof example_alignof t_int t_string)%N.
Proof.
  destruct (storage_layout example_sizeof example_alignof t_int t_string)
    as (_ & _ & Hsize & Halign).
  split; [exact Hsize |]. apply Halign. cbn. lia.
Defined.

(** ** [TryGet] and [Expect] where they are well-formed *)

(** X16.  [TryGet] never accepts a default of the sentinel type [None].
    With a default [d] of the success payload type, when that type is
    not the sentinel, it is well-formed and returns the stored success
    payload when the success variant is active and [d] when the failure
    variant is active, changing nothing; so [Ok(v).TryGet(d)] is [v] and
    [Err(e).TryGet(d)] is [d]. *)
Theorem TryGet_spec (ok_t err_t : cpp_type) :
  @TryGet ok_t err_t t_None = None /\
  (is_same_v ok_t t_None = false -> ok_t <> t_void ->
   exists try_get : addr -> denote ok_t -> M ok_t err_t (denote ok_t),
     TryGet ok_t = Some try_get /\
     (forall this w r o d,
         heap w !! this = Some (c_Result r) ->
         m_success r = true -> m_storage r = HoldsOk o ->
         try_get this d w = (Returned (val o), w)) /\
     (forall this w r d,
         heap w !! this = Some (c_Result r) ->
         m_success r = false ->
         try_get this d w = (Returned d, w)) /\
     (forall c v d w,
         exists w',
           bind (declare_from_Ok c v) (fun r => try_get r d) w
             = (Returned v, w') /\ cerr w' = cerr w) /\
     (forall c e d w,
         exists w',
           bind (declare_from_Err c e) (fun r => try_get r d) w
             = (Returned d, w') /\ cerr w' = cerr w)).
Proof.
  split; [reflexivity |]. intros Hn Hv.
  destruct (TryGet_own_type (ok_t := ok_t) (err_t := err_t) Hn Hv)
    as (t & Ht & Hbody).
  exists t. split; [exact Ht |]. split_and!.
  - intros this w r o d Hr Hok Ho. rewrite (Hbody _ _ _ _ Hr).
    unfold bind, Result_Ok. by rewrite Hok, Ho.
  - intros this w r d Hr Hf. rewrite (Hbody _ _ _ _ Hr). by rewrite Hf.
  - intros c v d w.
    destruct (declare_from_Ok_eq c v w) as (this & w' & Hd & _ & Hr & _ & Hc).
    exists w'. split; [| exact Hc].
    by rewrite (bind_eq _ _ _ _ _ Hd), (Hbody _ _ _ _ Hr).
  - intros c e d w.
    destruct (declare_from_Err_eq c e w) as (this & w' & Hd & _ & Hr & _ & Hc).
    exists w'. split; [| exact Hc].
    by rewrite (bind_eq _ _ _ _ _ Hd), (Hbody _ _ _ _ Hr).
Qed.

(** X17.  Where [Expect] is well-formed, for every message [msg]:
    on a container whose success variant is active it returns the
    sentinel [nullptr] when the success payload type is [None] and the
    stored success payload otherwise, changing nothing; on a container
    whose failure variant is active the error stream receives [msg]
    itself, unaltered, then [std::endl], and the call ends in
    [std::terminate]. *)
Theorem Expect_spec (ok_t err_t : cpp_type)
    (expect : addr -> string -> M ok_t err_t (denote ok_t)) (this : addr)
    (w : world ok_t err_t) (r : Result ok_t err_t) (msg : string) :
  Expect = Some expect ->
  heap w !! this = Some (c_Result r) ->
  (m_success r = true ->
     (forall null, sentinel ok_t = Some null ->
        expect this msg w = (Returned null, w)) /\
     (forall o, sentinel ok_t = None -> m_storage r = HoldsOk o ->
        expect this msg w = (Returned (val o), w))) /\
  (m_success r = false ->
     exists w',
       expect this msg w = (Terminated, w') /\
       heap w' = heap w /\
       cerr w' = cerr w ++ [Put msg; Endl] /\
       render (cerr w') = render (cerr w) +:+ msg +:+ render_op Endl).
Proof.
  intros He Hr. rewrite (Expect_unfold _ _ _ _ _ He Hr). split; intros Hs.
  - unfold bind at 1. rewrite Hs. cbn [negb ret]. split.
    + intros null Hn. by rewrite Hn.
    + intros o Hn Ho. rewrite Hn. unfold bind, Result_Ok. by rewrite Ho.
  - unfold bind at 1. rewrite Hs. cbn [negb]. rewrite ErrorTerminate_eq.
    eexists. split; [reflexivity |]. cbn. split_and!; try done.
    by rewrite render_app.
Qed.

Lemma TryGet_spec_witness :
  is_same_v t_int t_None = false /\
  t_int <> t_void /\
  exists try_get : addr -> Z -> M t_int t_int Z,
    @TryGet t_int t_int t_int = Some try_get /\
    try_get 1%positive 7 holding_3 = (Returned 3, holding_3) /\
    try_get 1%positive 7 holding_error_0 = (Returned 7, holding_error_0).
Proof.
  split; [reflexivity |]. split; [discriminate |].
  destruct (proj2 (TryGet_spec t_int t_int) eq_refl
              ltac:(discriminate))
    as (g & Hg & Hok & Hfail & _).
  exists g. split; [exact Hg |]. split.
  - exact (Hok 1%positive holding_3 _ (fresh_object 3) 7
             eq_refl eq_refl eq_refl).
  - exact (Hfail 1%positive holding_error_0 _ 7 eq_refl eq_refl).
Defined.

Lemma Expect_spec_witness :
  exists expect : addr -> string -> M t_string t_int string,
    @Expect t_string t_int = Some expect /\
    heap holding_hi !! 1%positive = Some (c_Result result_hi) /\
    heap holding_failed !! 1%positive = Some (c_Result result_failed) /\
    expect 1%positive "x" holding_hi = (Returned "hi", holding_hi) /\
    exists w',
      expect 1%positive "x" holding_failed = (Terminated, w') /\
      cerr w' = [Put "x"; Endl].
Proof.
  eexists. split; [reflexivity |]. split; [reflexivity |].
  split; [reflexivity |]. split.
  - destruct (Expect_spec t_string t_int _ 1%positive holding_hi _ "x"
                eq_refl eq_refl) as [Hok _].
    exact (proj2 (Hok eq_refl) (fresh_object "hi") eq_refl eq_refl).
  - destruct (Expect_spec t_string t_int _ 1%positive holding_failed _ "x"
                eq_refl eq_refl) as [_ Hfail].
    destruct (Hfail eq_refl) as (w' & Hrun & _ & Hc & _).
    exists w'. split; [exact Hrun | exact Hc].
Defined.
